(** * Snap operations facade (routes/snaps.js)

    A shallow embedding of the [Snaps] route wrapper: every method of
    [Snaps.prototype] is a function in a state-and-exception monad over a
    [world] that holds the shared transport client, the log of calls issued
    to the transport layer, and the counters behind the clock and the media
    identifier generator.  Callbacks are written in continuation-passing
    style, as in the JavaScript. *)

From Stdlib Require Import ZArith List String Ascii Bool Lia DecimalString.
Import ListNotations.

Local Open Scope string_scope.
Local Open Scope Z_scope.
Local Open Scope list_scope.

(** ** JavaScript values *)

Set Warnings "-register-all".

Inductive value : Type :=
| VUndefined
| VNull
| VBool (b : bool)
| VNum (n : Z)
| VStr (s : string)
| VArr (items : list value)
| VObj (props : list (string * value))
| VDate (ms : Z)
| VError (name msg : string)
| VBlob (isImage data : value).   (* an instance of SKBlob *)

(** [if (v)]: the falsy values are undefined, null, false, 0 and the empty
    string. *)
Definition truthy (v : value) : bool :=
  match v with
  | VUndefined | VNull => false
  | VBool b => b
  | VNum n => negb (n =? 0)
  | VStr s => negb (String.eqb s EmptyString)
  | _ => true
  end.

(** Own properties of an object, in insertion order. *)
Definition props := list (string * value).

Fixpoint get_prop (k : string) (o : props) : option value :=
  match o with
  | [] => None
  | (k', v) :: rest => if String.eqb k k' then Some v else get_prop k rest
  end.

(** [o[k] = v]: overwrite in place, or append a new property.  This is a
    plain object under ordinary keys.  Two kinds of key behave otherwise in
    JavaScript and lie outside the model: integer-like keys, which are
    enumerated before all others and in numeric order, and [__proto__],
    whose assignment sets the prototype and creates no property.  Reading
    back under the key just written is the same for every key; what is said
    about the order or the set of keys is said for ordinary keys only. *)
Fixpoint set_prop (k : string) (v : value) (o : props) : props :=
  match o with
  | [] => [(k, v)]
  | (k', v') :: rest =>
      if String.eqb k k' then (k, v) :: rest else (k', v') :: set_prop k v rest
  end.

Inductive result (A : Type) : Type :=
| Ok (a : A)
| Throw (e : value).
Arguments Ok {A} a.
Arguments Throw {A} e.

Definition TypeError_undefined (k : string) : value :=
  VError "TypeError"
         (append "Cannot read property '" (append k "' of undefined")).

(** [v.k]: reading a property of undefined or null throws a TypeError; a
    missing property reads as undefined. *)
Definition get_member (v : value) (k : string) : result value :=
  match v with
  | VUndefined | VNull => Throw (TypeError_undefined k)
  | VObj o => Ok (match get_prop k o with Some x => x | None => VUndefined end)
  | VBlob isImage data =>
      Ok (if String.eqb k "isImage" then isImage
          else if String.eqb k "data" then data else VUndefined)
  | VArr items =>
      Ok (if String.eqb k "length" then VNum (Z.of_nat (List.length items))
          else VUndefined)
  | VError name msg =>
      Ok (if String.eqb k "name" then VStr name
          else if String.eqb k "message" then VStr msg else VUndefined)
  | _ => Ok VUndefined
  end.

(** [ToInt32] on an integral number, and [a | b]. *)
Definition ToInt32 (n : Z) : Z :=
  let m := n mod 2 ^ 32 in
  if m >=? 2 ^ 31 then m - 2 ^ 32 else m.

Definition js_bitor (a b : Z) : Z := Z.lor (ToInt32 a) (ToInt32 b).

(** ** The transport client and the world *)

Record Session : Type := {
  countryCode : value;
  addedFriendsTimestamp : value
}.

Record ScreenSize : Type := {
  width : value;
  height : value
}.

Record Client : Type := {
  username : string;
  authToken : value;
  googleAuthToken : string;
  session : Session;
  screenSize : ScreenSize
}.

(** Calls the facade issues to the transport layer. *)
Inductive call : Type :=
| Post (endpoint : string) (form : value)                    (* client.post *)
| PostCustom (endpoint : string) (form headers token : value) (* Request.postCustom *)
| SendEvents (events snapInfo : value).                      (* client.sendEvents *)

(** What the transport layer answers: the two callback arguments, and the
    client object as the transport leaves it (the session is the transport's
    to update). *)
Record reply : Type := {
  r_err : value;
  r_result : value;
  r_client : Client
}.

Record event : Type := {
  ev_client : Client;   (* the client object when the call was issued *)
  ev_call : call;
  ev_reply : reply
}.

Record world : Type := {
  client : Client;      (* the object behind [self.client] *)
  trace : list event;   (* calls issued so far, oldest first *)
  ticks : nat;          (* clock readings so far *)
  minted : nat          (* media identifiers generated so far *)
}.

(** The constants table of [lib/constants], which is not part of this file. *)
Record Constants : Type := {
  endpoints_snaps_send : string;
  endpoints_snaps_upload : string;
  endpoints_snaps_loadBlob : string;
  endpoints_update_snaps : string;
  endpoints_misc_locationData : string;
  MediaKind_Image_value : value;
  MediaKind_Video_value : value;
  SnapStatus_Screenshot : value;
  headers_clientAuthToken : string;
  headers_contentType : string;
  core_boundary : string
}.

(** The collaborators of the facade: the remote end, the clock, and the
    helpers of [lib/string-utils], [models/blob] and [models/location]. *)
Record Env : Type := {
  constants : Constants;
  transport : list event -> Client -> call -> reply;
  clock : nat -> Z;                      (* the n-th reading, in milliseconds *)
  timestampFrom : value -> value;        (* StringUtils.timestampFrom *)
  mediaIdentifier : string -> nat -> string; (* StringUtils.mediaIdentifier *)
  JSON_stringify : value -> string;      (* JSON.stringify *)
  SKBlob_initWithData : value -> value * value; (* callback arguments (err, blob) *)
  SKLocation_new : value -> value        (* new SKLocation(result) *)
}.

(** ** The monad *)

Definition M (A : Type) : Type := world -> result A * world.

Definition ret {A} (a : A) : M A := fun w => (Ok a, w).

Definition throw {A} (e : value) : M A := fun w => (Throw e, w).

Definition bind {A B} (m : M A) (f : A -> M B) : M B :=
  fun w =>
    match m w with
    | (Ok a, w') => f a w'
    | (Throw e, w') => (Throw e, w')
    end.

Definition lift {A} (r : result A) : M A := fun w => (r, w).

Declare Scope js_scope.
Delimit Scope js_scope with js.
Notation "x <- m ;; k" := (bind m (fun x => k))
  (at level 61, m at next level, right associativity) : js_scope.
Local Open Scope js_scope.

(** [self.client] *)
Definition get_client : M Client := fun w => (Ok (client w), w).

(** ** Promises and node-style callbacks *)

Inductive settled : Type :=
| Resolved (v : value)
| Rejected (e : value).

Definition resolve (v : value) : M settled := ret (Resolved v).
Definition reject (e : value) : M settled := ret (Rejected e).

(** [new Promise(executor)]: the executor runs at once; an exception it
    throws rejects the promise.  The only throw under an executor in this
    file is the one of [_uploadSnap], which happens before any callback is
    handed to the transport; the callbacks themselves read typed records and
    cannot throw. *)
Definition Promise_new
    (executor : (value -> M settled) -> (value -> M settled) -> M settled)
  : M settled :=
  fun w =>
    match executor resolve reject w with
    | (Ok s, w') => (Ok s, w')
    | (Throw e, w') => (Ok (Rejected e), w')
    end.

(** [.nodeify(cb)] hands the settled value to [cb] as well and returns the
    promise. *)
Definition nodeify (p : M settled) : M settled := p.

(** The caller's [cb(err, result)]. *)
Definition deliver (err res : value) : M settled :=
  ret (if truthy err then Rejected err else Resolved res).

(** ** Transport primitives *)

(** A call is logged with the client as it was, the transport answers, and
    the callback runs on the answer: the transport honours the node
    contract and calls back exactly once. *)

Definition issue {A} (env : Env) (c : call) (k : reply -> M A) : M A :=
  fun w =>
    let rp := transport env (trace w) (client w) c in
    k rp {| client := r_client rp;
            trace := trace w ++ [{| ev_client := client w;
                                    ev_call := c;
                                    ev_reply := rp |}];
            ticks := ticks w;
            minted := minted w |}.

Definition client_post {A} (env : Env) (endpoint : string) (form : value)
    (cb : value -> value -> M A) : M A :=
  issue env (Post endpoint form) (fun rp => cb (r_err rp) (r_result rp)).

Definition Request_postCustom {A} (env : Env) (endpoint : string)
    (form headers token : value) (cb : value -> M A) : M A :=
  issue env (PostCustom endpoint form headers token)
        (fun rp => cb (r_err rp)).

Definition client_sendEvents {A} (env : Env) (events snapInfo : value)
    (cb : value -> value -> M A) : M A :=
  issue env (SendEvents events snapInfo)
        (fun rp => cb (r_err rp) (r_result rp)).

(** ** Clock and identifiers *)

Definition read_clock (env : Env) : M Z :=
  fun w => (Ok (clock env (ticks w)),
            {| client := client w; trace := trace w;
               ticks := S (ticks w); minted := minted w |}).

(** [new Date()] *)
Definition Date_new (env : Env) : M value :=
  now <- read_clock env ;; ret (VDate now).

(** [StringUtils.timestamp()] of [lib/string-utils]: the wire-format
    timestamp of the current time, taken from the environment's clock.  It
    is represented by its numeric value, a count of milliseconds, which is
    all [| 0] looks at. *)
Definition StringUtils_timestamp (env : Env) : M Z := read_clock env.

Definition StringUtils_mediaIdentifier (env : Env) (user : string) : M string :=
  fun w => (Ok (mediaIdentifier env user (minted w)),
            {| client := client w; trace := trace w;
               ticks := ticks w; minted := S (minted w) |}).

(** ** Models passed to the facade *)

Record Snap : Type := { identifier : string }.

Record Location : Type := { lat : value; lng : value }.

Record SnapOptions : Type := {
  recipients : value;
  text : value;
  timer : Z;
  isReply : value;
  cameraFrontFacing : value
}.

Definition dquote : string := String (ascii_of_nat 34) EmptyString.

Definition InvalidArgument_timer : value :=
  VError "Error" "SnapOptions invalid argument: timer must be greater than 0".

Definition InvalidArgument_lengths : value :=
  VError "Error" "Snaps.markSnapsViewed all arrays must have the same length".

Definition InvalidArgument_blob : value :=
  VError "Error"
    (append "Snap._uploadSnap invalid argument "
       (append dquote (append "blob"
          (append dquote " must be SKBlob instance")))).

Definition ParseError_filters : value :=
  VError "Error" "Snaps.loadFiltersForLocation parse error".

(** Modelled from the spec: the constructor of [models/snap-options], which
    is not part of this file.  The display duration must be greater than 0
    or an exception is raised; the optional flags start unset. *)
Definition SnapOptions_new (recipients text : value) (duration : Z)
  : result SnapOptions :=
  if duration <=? 0 then Throw InvalidArgument_timer
  else Ok {| recipients := recipients;
             text := text;
             timer := duration;
             isReply := VUndefined;
             cameraFrontFacing := VUndefined |}.

(** ** The facade *)

(** A [Snaps] object: [self.client] is the shared client of the world; any
    other own property is looked up in [own]. *)
Record Snaps : Type := { own : props }.

(** [function Snaps (client, opts)] stores the client and nothing else. *)
Definition Snaps_new (opts : value) : Snaps := {| own := [] |}.

(** [self.session] *)
Definition self_session (self : Snaps) : value :=
  match get_prop "session" (own self) with
  | Some v => v
  | None => VUndefined
  end.

Definition _uploadSnap {A} (env : Env) (self : Snaps) (blob : value)
    (cb : value -> value -> M A) : M A :=
  c <- get_client ;;
  uuid <- StringUtils_mediaIdentifier env (username c) ;;
  match blob with
  | VBlob isImage data =>
      let params :=
        VObj [ ("media_id", VStr uuid);
               ("type", if truthy isImage
                        then MediaKind_Image_value (constants env)
                        else MediaKind_Video_value (constants env));
               ("data", data);
               ("zipped", VNum 0);
               ("features_map", VStr "{}");
               ("username", VStr (username c)) ] in
      let headers :=
        set_prop (headers_contentType (constants env))
          (VStr (append "multipart/form-data; boundary="
                        (core_boundary (constants env))))
          (set_prop (headers_clientAuthToken (constants env))
             (VStr (append "Bearer " (googleAuthToken c))) []) in
      Request_postCustom env (endpoints_snaps_upload (constants env))
        params (VObj headers) (authToken c)
        (fun err => if truthy err then cb err VUndefined
                    else cb VNull (VStr uuid))
  | _ => throw InvalidArgument_blob
  end.

Definition sendSnapCustom (env : Env) (self : Snaps) (blob : value)
    (opts : SnapOptions) : M settled :=
  nodeify (Promise_new (fun resolve reject =>
    _uploadSnap env self blob (fun err mediaID =>
      if truthy err then reject err
      else
        c <- get_client ;;
        client_post env (endpoints_snaps_send (constants env))
          (VObj [ ("camera_front_facing", VBool (truthy (cameraFrontFacing opts)));
                  ("country_code", countryCode (session c));
                  ("media_id", mediaID);
                  ("recipients", VStr (JSON_stringify env (recipients opts)));
                  ("recipient_ids", VStr (JSON_stringify env (recipients opts)));
                  ("reply", VBool (truthy (isReply opts)));
                  ("time", VNum (timer opts));
                  ("zipped", VNum 0);
                  ("username", VStr (username c)) ])
          (fun err res => if truthy err then reject err else resolve res)))).

Definition sendSnap (env : Env) (self : Snaps) (blob recipients text : value)
    (duration : Z) : M settled :=
  opts <- lift (SnapOptions_new recipients text duration) ;;
  sendSnapCustom env self blob opts.

(** [snaps.forEach(function (snap, index) { json[snap.identifier] = ... })] *)
Fixpoint forEach_record (env : Env) (index : nat) (snaps : list Snap)
    (times secondsViewed : list value) (json : props) : props :=
  match snaps with
  | [] => json
  | snap :: rest =>
      forEach_record env (S index) rest times secondsViewed
        (set_prop (identifier snap)
           (VObj [ ("t", timestampFrom env (nth index times VUndefined));
                   ("sv", nth index secondsViewed VUndefined) ])
           json)
  end.

Definition markSnapsViewed (env : Env) (self : Snaps) (snaps : list Snap)
    (times secondsViewed : list value) : M settled :=
  if negb (Nat.eqb (List.length snaps) (List.length times))
     || negb (Nat.eqb (List.length times) (List.length secondsViewed))
  then throw InvalidArgument_lengths
  else
    let json := forEach_record env 0 snaps times secondsViewed [] in
    aft <- lift (get_member (self_session self) "addedFriendsTimestamp") ;;
    c <- get_client ;;
    client_post env (endpoints_update_snaps (constants env))
      (VObj [ ("added_friends_timestamp", timestampFrom env aft);
              ("username", VStr (username c));
              ("json", VStr (JSON_stringify env (VObj json))) ])
      deliver.

Definition markSnapViewed (env : Env) (self : Snaps) (snap : Snap)
    (secondsViewed : value) : M settled :=
  now <- Date_new env ;;
  markSnapsViewed env self [snap] [now] [secondsViewed].

Definition markSnapScreenshot (env : Env) (self : Snaps) (snap : Snap)
    (secondsViewed : value) : M settled :=
  timestamp <- StringUtils_timestamp env ;;
  let snapInfo :=
    set_prop (identifier snap)
      (VObj [ ("t", VNum (js_bitor timestamp 0));
              ("sv", secondsViewed);
              ("c", SnapStatus_Screenshot (constants env)) ])
      [] in
  ts <- StringUtils_timestamp env ;;
  let screenshot :=
    VObj [ ("eventName", VStr "SNAP_SCREENSHOT");
           ("params", VObj [ ("id", VStr (identifier snap)) ]);
           ("ts", VNum (js_bitor ts 0)) ] in
  client_sendEvents env (VArr [screenshot]) (VObj snapInfo) deliver.

Definition _loadSnapWithIdentifier (env : Env) (self : Snaps) (id : string)
  : M settled :=
  nodeify (Promise_new (fun resolve reject =>
    c <- get_client ;;
    client_post env (endpoints_snaps_loadBlob (constants env))
      (VObj [ ("id", VStr id); ("username", VStr (username c)) ])
      (fun err body =>
         if truthy err then reject err
         else
           let '(err', blob) := SKBlob_initWithData env body in
           if truthy err' then reject err' else resolve blob))).

Definition loadSnap (env : Env) (self : Snaps) (snap : Snap) : M settled :=
  _loadSnapWithIdentifier env self (identifier snap).

Definition loadFiltersForLocation (env : Env) (self : Snaps)
    (location : Location) : M settled :=
  nodeify (Promise_new (fun resolve reject =>
    c <- get_client ;;
    client_post env (endpoints_misc_locationData (constants env))
      (VObj [ ("lat", lat location);
              ("lng", lng location);
              ("screen_width", width (screenSize c));
              ("screen_height", height (screenSize c));
              ("username", VStr (username c)) ])
      (fun err res =>
         if truthy err then reject err
         else if truthy res then resolve (SKLocation_new env res)
         else reject ParseError_filters))).

(** The public operations, as one type. *)
Inductive operation : Type :=
| OpSendSnap (blob recipients text : value) (duration : Z)
| OpSendSnapCustom (blob : value) (opts : SnapOptions)
| OpMarkSnapViewed (snap : Snap) (secondsViewed : value)
| OpMarkSnapsViewed (snaps : list Snap) (times secondsViewed : list value)
| OpMarkSnapScreenshot (snap : Snap) (secondsViewed : value)
| OpLoadSnap (snap : Snap)
| OpLoadFiltersForLocation (location : Location).

Definition run (env : Env) (self : Snaps) (o : operation) : M settled :=
  match o with
  | OpSendSnap blob recipients text duration =>
      sendSnap env self blob recipients text duration
  | OpSendSnapCustom blob opts => sendSnapCustom env self blob opts
  | OpMarkSnapViewed snap sv => markSnapViewed env self snap sv
  | OpMarkSnapsViewed snaps times svs => markSnapsViewed env self snaps times svs
  | OpMarkSnapScreenshot snap sv => markSnapScreenshot env self snap sv
  | OpLoadSnap snap => loadSnap env self snap
  | OpLoadFiltersForLocation location => loadFiltersForLocation env self location
  end.

(** ** Observations on the trace *)

Definition is_post_to (endpoint : string) (ev : event) : bool :=
  match ev_call ev with
  | Post e _ => String.eqb e endpoint
  | _ => false
  end.

(** How many times [client.post] was invoked for [endpoint]. *)
Definition posts_to (endpoint : string) (t : list event) : nat :=
  List.length (filter (is_post_to endpoint) t).

(** The objects the facade hands over in a call. *)
Definition call_payload (c : call) : list value :=
  match c with
  | Post _ form => [form]
  | PostCustom _ form headers _ => [form; headers]
  | SendEvents (VArr events) snapInfo => events ++ [snapInfo]
  | SendEvents events snapInfo => [events; snapInfo]
  end.

(** A call includes the session's username when one of the objects handed
    over has a [username] property holding the client's username at the
    time of the call. *)
Definition has_username (ev : event) : Prop :=
  Exists (fun p => get_member p "username" = Ok (VStr (username (ev_client ev))))
         (call_payload (ev_call ev)).

(** Form posts, through [client.post] or [Request.postCustom]. *)
Definition is_form_post (ev : event) : bool :=
  match ev_call ev with
  | SendEvents _ _ => false
  | _ => true
  end.

Definition failed (ev : event) : bool := truthy (r_err (ev_reply ev)).

(** The upload step of [sendSnapCustom] on its own, returning the arguments
    its callback receives. *)
Definition upload_step (env : Env) (self : Snaps) (blob : value)
  : M (value * value) :=
  _uploadSnap env self blob (fun err mediaID => ret (err, mediaID)).

(** The upload step fails with [e]: [_uploadSnap] throws [e], or calls back
    with the error [e]. *)
Definition upload_fails (env : Env) (self : Snaps) (blob : value) (w : world)
    (e : value) : Prop :=
  fst (upload_step env self blob w) = Throw e
  \/ exists mediaID,
       fst (upload_step env self blob w) = Ok (e, mediaID) /\ truthy e = true.

(** Operations that hand every failure to the promise or to the callback. *)
Definition delivers_async (o : operation) : bool :=
  match o with
  | OpSendSnapCustom _ _ | OpLoadSnap _ | OpLoadFiltersForLocation _
  | OpMarkSnapScreenshot _ _ => true
  | _ => false
  end.

Definition is_SKBlob (v : value) : bool :=
  match v with
  | VBlob _ _ => true
  | _ => false
  end.

Definition tick (w : world) : world :=
  {| client := client w; trace := trace w;
     ticks := S (ticks w); minted := minted w |}.

(** ** A sample environment *)

Module Sample.

Definition table : Constants := {|
  endpoints_snaps_send := "/loq/send";
  endpoints_snaps_upload := "/ph/upload";
  endpoints_snaps_loadBlob := "/bq/blob";
  endpoints_update_snaps := "/bq/update_snaps";
  endpoints_misc_locationData := "/loq/loc_data";
  MediaKind_Image_value := VNum 0;
  MediaKind_Video_value := VNum 1;
  SnapStatus_Screenshot := VNum 3;
  headers_clientAuthToken := "X-Snapchat-Client-Auth-Token";
  headers_contentType := "Content-Type";
  core_boundary := "Boundary+0xAbCdEfGbOuNdArY"
|}.

(** A plain encoder, enough for the samples: no escaping inside strings. *)
Fixpoint encode (v : value) : string :=
  match v with
  | VBool true => "true"
  | VBool false => "false"
  | VNum n => NilZero.string_of_int (Z.to_int n)
  | VStr s => append dquote (append s dquote)
  | VArr items =>
      append "["
        (append
           ((fix go (l : list value) : string :=
               match l with
               | [] => EmptyString
               | [x] => encode x
               | x :: rest => append (encode x) (append "," (go rest))
               end) items)
           "]")
  | VObj o =>
      append "{"
        (append
           ((fix go (l : list (string * value)) : string :=
               match l with
               | [] => EmptyString
               | [(k, x)] =>
                   append dquote (append k (append dquote (append ":" (encode x))))
               | (k, x) :: rest =>
                   append dquote
                     (append k (append dquote
                        (append ":" (append (encode x) (append "," (go rest))))))
               end) o)
           "}")
  | _ => "null"
  end.

(** A transport that answers every call with the same callback arguments
    and leaves the client as it is. *)
Definition answer (err res : value) : list event -> Client -> call -> reply :=
  fun _ c _ => {| r_err := err; r_result := res; r_client := c |}.

Definition env_of (t : list event -> Client -> call -> reply) : Env := {|
  constants := table;
  transport := t;
  clock := fun n => 1446336000000 + Z.of_nat n;
  timestampFrom := fun v => match v with VDate ms => VNum ms | _ => v end;
  mediaIdentifier :=
    fun user n => append user (append "~" (NilZero.string_of_uint (Nat.to_uint n)));
  JSON_stringify := encode;
  SKBlob_initWithData := fun body => (VNull, VBlob (VBool true) body);
  SKLocation_new := fun raw => VObj [("filters", raw)]
|}.

Definition env_ok : Env := env_of (answer VNull (VObj [("ok", VBool true)])).
Definition env_down : Env := env_of (answer (VError "Error" "ECONNRESET") VUndefined).
Definition env_empty : Env := env_of (answer VNull VNull).

Definition alice : Client := {|
  username := "alice";
  authToken := VStr "token";
  googleAuthToken := "gtoken";
  session := {| countryCode := VStr "US";
                addedFriendsTimestamp := VNum 1446000000000 |};
  screenSize := {| width := VNum 720; height := VNum 1280 |}
|}.

Definition w0 : world :=
  {| client := alice; trace := []; ticks := 0; minted := 0 |}.

Definition facade : Snaps := Snaps_new VUndefined.

(** A facade on which some caller has set a [session] property. *)
Definition patched : Snaps :=
  {| own := [("session", VObj [("addedFriendsTimestamp", VNum 7)])] |}.

Definition s1 : Snap := {| identifier := "s1" |}.
Definition image : value := VBlob (VBool true) (VStr "bytes").
Definition here : Location := {| lat := VNum 1; lng := VNum 2 |}.

(** A transport under which the account is renamed while the upload is
    in flight. *)
Definition renaming : list event -> Client -> call -> reply :=
  fun _ c k =>
    {| r_err := VNull;
       r_result := VObj [("ok", VBool true)];
       r_client :=
         match k with
         | PostCustom _ _ _ _ =>
             {| username := "alice2"; authToken := authToken c;
                googleAuthToken := googleAuthToken c;
                session := session c; screenSize := screenSize c |}
         | _ => c
         end |}.

Definition opts0 : SnapOptions :=
  {| recipients := VArr [VStr "bob"]; text := VStr "hi"; timer := 0;
     isReply := VUndefined; cameraFrontFacing := VUndefined |}.

End Sample.

(** ** Observations on record maps and calls *)

(** The property names of an object, in order. *)
Definition keys (o : props) : list string := map fst o.

(** The record [markSnapsViewed] stores for the snap at [index]. *)
Definition view_record (env : Env) (times secondsViewed : list value)
    (index : nat) : value :=
  VObj [ ("t", timestampFrom env (nth index times VUndefined));
         ("sv", nth index secondsViewed VUndefined) ].

Definition call_endpoint (c : call) : option string :=
  match c with
  | Post endpoint _ => Some endpoint
  | PostCustom endpoint _ _ _ => Some endpoint
  | SendEvents _ _ => None
  end.

(** The client as the last of [new] calls left it, or [c] when there was
    none. *)
Definition client_after (c : Client) (new : list event) : Client :=
  last (map (fun ev => r_client (ev_reply ev)) new) c.

(** The form, the headers and the send form of [sendSnapCustom], for a
    client [c] and a media identifier. *)
Definition upload_form (env : Env) (c : Client) (uuid : string)
    (isImage data : value) : value :=
  VObj [ ("media_id", VStr uuid);
         ("type", if truthy isImage
                  then MediaKind_Image_value (constants env)
                  else MediaKind_Video_value (constants env));
         ("data", data);
         ("zipped", VNum 0);
         ("features_map", VStr "{}");
         ("username", VStr (username c)) ].

Definition upload_headers (env : Env) (c : Client) : props :=
  set_prop (headers_contentType (constants env))
    (VStr (append "multipart/form-data; boundary="
                  (core_boundary (constants env))))
    (set_prop (headers_clientAuthToken (constants env))
       (VStr (append "Bearer " (googleAuthToken c))) []).

Definition send_form (env : Env) (c : Client) (mediaID : value)
    (opts : SnapOptions) : value :=
  VObj [ ("camera_front_facing", VBool (truthy (cameraFrontFacing opts)));
         ("country_code", countryCode (session c));
         ("media_id", mediaID);
         ("recipients", VStr (JSON_stringify env (recipients opts)));
         ("recipient_ids", VStr (JSON_stringify env (recipients opts)));
         ("reply", VBool (truthy (isReply opts)));
         ("time", VNum (timer opts));
         ("zipped", VNum 0);
         ("username", VStr (username c)) ].

(** The world once a media identifier has been generated. *)
Definition mint (w : world) : world :=
  {| client := client w; trace := trace w;
     ticks := ticks w; minted := S (minted w) |}.

(** The calls an operation may make: which primitive, to which endpoint. *)
Definition may_call (env : Env) (o : operation) (c : call) : Prop :=
  match o, c with
  | (OpSendSnap _ _ _ _ | OpSendSnapCustom _ _), PostCustom endpoint _ _ _ =>
      endpoint = endpoints_snaps_upload (constants env)
  | (OpSendSnap _ _ _ _ | OpSendSnapCustom _ _), Post endpoint _ =>
      endpoint = endpoints_snaps_send (constants env)
  | (OpMarkSnapViewed _ _ | OpMarkSnapsViewed _ _ _), Post endpoint _ =>
      endpoint = endpoints_update_snaps (constants env)
  | OpMarkSnapScreenshot _ _, SendEvents _ _ => True
  | OpLoadSnap _, Post endpoint _ =>
      endpoint = endpoints_snaps_loadBlob (constants env)
  | OpLoadFiltersForLocation _, Post endpoint _ =>
      endpoint = endpoints_misc_locationData (constants env)
  | _, _ => False
  end.

(** A transport that accepts uploads and refuses every post. *)
Definition posts_refused : list event -> Client -> call -> reply :=
  fun _ c k =>
    match k with
    | Post _ _ =>
        {| r_err := VError "Error" "refused"; r_result := VUndefined;
           r_client := c |}
    | _ => {| r_err := VNull; r_result := VObj []; r_client := c |}
    end.

(** Modelled from the spec: the request [client.sendEvents] of the
    transport client builds, which is not part of this file.  The events
    and the view records go out together in one request, and, as in every
    outgoing request, the session's username is included, read from the
    client when the call is made. *)
Definition client_sendEvents_request (c : Client) (events snapInfo : value)
  : value :=
  VObj [ ("events", events);
         ("json", snapInfo);
         ("username", VStr (username c)) ].

(** The request that goes out for a call: the form the facade posts, or the
    request the client builds around the events it was handed. *)
Definition outgoing_request (ev : event) : value :=
  match ev_call ev with
  | Post _ form => form
  | PostCustom _ form _ _ => form
  | SendEvents events snapInfo =>
      client_sendEvents_request (ev_client ev) events snapInfo
  end.

(** Keys whose assignment sets the prototype of a plain object. *)
Definition sets_prototype (k : string) : bool := String.eqb k "__proto__".

Definition is_digit (a : ascii) : bool :=
  Nat.leb 48 (nat_of_ascii a) && Nat.leb (nat_of_ascii a) 57.

Fixpoint digits_only (s : string) : bool :=
  match s with
  | EmptyString => true
  | String a rest => is_digit a && digits_only rest
  end.

(** Keys written with decimal digits alone; the integer-like keys, which
    JavaScript enumerates first and in numeric order, are among them. *)
Definition numeric_key (k : string) : bool :=
  negb (String.eqb k EmptyString) && digits_only k.

(** Keys for which a plain object is an insertion-ordered list. *)
Definition ordinary_key (k : string) : bool :=
  negb (sets_prototype k) && negb (numeric_key k).

Definition anonymous : Snap := {| identifier := EmptyString |}.

(** A batch of views with a repeated snap. *)
Module Batch.

Definition a : Snap := {| identifier := "a" |}.
Definition b : Snap := {| identifier := "b" |}.
Definition snaps : list Snap := [a; b; a].
Definition times : list value := [VDate 10; VDate 20; VDate 30].
Definition seconds : list value := [VNum 1; VNum 2; VNum 3].

End Batch.

(** * Properties *)

(** ** Bitwise coercion *)

Lemma ToInt32_range (n : Z) : - 2 ^ 31 <= ToInt32 n < 2 ^ 31.
Proof.
  unfold ToInt32.
  pose proof (Z.mod_pos_bound n (2 ^ 32) ltac:(lia)) as Hm.
  destruct (n mod 2 ^ 32 >=? 2 ^ 31) eqn:E; lia.
Qed.

Lemma ToInt32_congruent (n : Z) : (ToInt32 n - n) mod 2 ^ 32 = 0.
Proof.
  unfold ToInt32.
  pose proof (Z.div_mod n (2 ^ 32) ltac:(lia)) as Hd.
  destruct (n mod 2 ^ 32 >=? 2 ^ 31).
  - replace (n mod 2 ^ 32 - 2 ^ 32 - n) with ((- (n / 2 ^ 32) - 1) * 2 ^ 32) by lia.
    apply Z.mod_mul; lia.
  - replace (n mod 2 ^ 32 - n) with ((- (n / 2 ^ 32)) * 2 ^ 32) by lia.
    apply Z.mod_mul; lia.
Qed.

Lemma js_bitor_zero (n : Z) : js_bitor n 0 = ToInt32 n.
Proof.
  unfold js_bitor.
  change (ToInt32 0) with 0.
  apply Z.lor_0_r.
Qed.

(** ** The upload step *)

(** [_uploadSnap] with any callback is the upload step followed by the
    callback. *)
Lemma _uploadSnap_callback {A} env self blob (cb : value -> value -> M A) w :
  _uploadSnap env self blob cb w =
  match upload_step env self blob w with
  | (Ok (err, mediaID), w') => cb err mediaID w'
  | (Throw e, w') => (Throw e, w')
  end.
Proof.
  unfold upload_step, _uploadSnap, bind, get_client, StringUtils_mediaIdentifier,
    Request_postCustom, issue, throw, ret.
  destruct blob; try reflexivity.
  match goal with |- context [truthy ?x] => destruct (truthy x) end; reflexivity.
Qed.

(** The upload step never invokes [client.post]. *)
Lemma upload_step_posts env self blob w endpoint :
  posts_to endpoint (trace (snd (upload_step env self blob w))) =
  posts_to endpoint (trace w).
Proof.
  unfold upload_step, _uploadSnap, bind, get_client, StringUtils_mediaIdentifier,
    Request_postCustom, issue, throw, ret.
  destruct blob; try reflexivity.
  match goal with |- context [truthy ?x] => destruct (truthy x) end;
    cbn [snd trace]; unfold posts_to; rewrite filter_app; cbn;
    rewrite app_nil_r; reflexivity.
Qed.

(** C1.  If the upload step of [sendSnapCustom] fails with [e], whether
    [_uploadSnap] throws [e] or the upload calls back with the error [e],
    then [sendSnapCustom] rejects with exactly [e], stops where the upload
    step stopped, and [client.post] has been invoked for no endpoint, the
    send endpoint included. *)
Theorem sendSnapCustom_upload_failure env self blob opts w e :
  upload_fails env self blob w e ->
  fst (sendSnapCustom env self blob opts w) = Ok (Rejected e)
  /\ snd (sendSnapCustom env self blob opts w) = snd (upload_step env self blob w)
  /\ forall endpoint,
       posts_to endpoint (trace (snd (sendSnapCustom env self blob opts w))) =
       posts_to endpoint (trace w).
Proof.
  intros Hfail.
  assert (Hrun : sendSnapCustom env self blob opts w =
                 (Ok (Rejected e), snd (upload_step env self blob w))).
  { unfold sendSnapCustom, nodeify, Promise_new.
    rewrite _uploadSnap_callback.
    destruct Hfail as [Hthrow | [mediaID [Hcb Herr]]].
    - destruct (upload_step env self blob w) as [[[err m] | e'] w'];
        cbn in Hthrow; inversion Hthrow; subst; reflexivity.
    - destruct (upload_step env self blob w) as [[[err m] | e'] w'];
        cbn in Hcb; inversion Hcb; subst.
      rewrite Herr. reflexivity. }
  rewrite Hrun. cbn [fst snd].
  repeat split. intros endpoint. apply upload_step_posts.
Qed.

Lemma sendSnapCustom_upload_failure_witness :
  upload_fails Sample.env_down Sample.facade Sample.image Sample.w0
               (VError "Error" "ECONNRESET")
  /\ fst (sendSnapCustom Sample.env_down Sample.facade Sample.image
                         Sample.opts0 Sample.w0)
     = Ok (Rejected (VError "Error" "ECONNRESET")).
Proof.
  assert (H : upload_fails Sample.env_down Sample.facade Sample.image Sample.w0
                           (VError "Error" "ECONNRESET")).
  { right. exists VUndefined. split; reflexivity. }
  split; [exact H |].
  exact (proj1 (sendSnapCustom_upload_failure Sample.env_down Sample.facade
                  Sample.image Sample.opts0 Sample.w0 _ H)).
Defined.

(** ** Argument checks *)

(** C2.  For a duration [d <= 0], [sendSnap] fails with the invalid-argument
    error of the options constructor and leaves the world as it found it:
    no call reaches the transport client.  No options value can be
    constructed with that duration, so [sendSnapCustom] is never entered
    with one. *)
Theorem sendSnap_nonpositive_duration env self blob recipients text d w :
  d <= 0 ->
  sendSnap env self blob recipients text d w = (Throw InvalidArgument_timer, w)
  /\ forall opts, SnapOptions_new recipients text d <> Ok opts.
Proof.
  intros Hd.
  unfold sendSnap, bind, lift, SnapOptions_new.
  destruct (d <=? 0) eqn:E; [| lia].
  split; [reflexivity | discriminate].
Qed.

Lemma sendSnap_nonpositive_duration_witness :
  -3 <= 0
  /\ sendSnap Sample.env_ok Sample.facade Sample.image
       (VArr [VStr "bob"]) (VStr "hi") (-3) Sample.w0
     = (Throw InvalidArgument_timer, Sample.w0).
Proof.
  split; [lia |].
  apply (sendSnap_nonpositive_duration Sample.env_ok Sample.facade Sample.image
           (VArr [VStr "bob"]) (VStr "hi") (-3) Sample.w0).
  lia.
Defined.

(** [sendSnapCustom] itself does not look at the timer: handed an options
    record whose timer is 0, it uploads and sends. *)
Lemma sendSnapCustom_no_timer_check :
  timer Sample.opts0 = 0
  /\ fst (sendSnapCustom Sample.env_ok Sample.facade Sample.image
            Sample.opts0 Sample.w0)
     = Ok (Resolved (VObj [("ok", VBool true)]))
  /\ List.length (trace (snd (sendSnapCustom Sample.env_ok Sample.facade
                                Sample.image Sample.opts0 Sample.w0))) = 2%nat.
Proof. repeat split. Qed.

(** The send post reads [self.client.username] when it is made: renamed
    during the upload, the account sends under its new name, with the media
    identifier minted under the old one. *)
Lemma sendSnapCustom_reads_client_at_post_time :
  map (fun ev => match ev_call ev with
                 | Post _ form | PostCustom _ form _ _ =>
                     (get_member form "media_id", get_member form "username")
                 | SendEvents _ _ => (Ok VUndefined, Ok VUndefined)
                 end)
      (trace (snd (sendSnapCustom (Sample.env_of Sample.renaming) Sample.facade
                     Sample.image Sample.opts0 Sample.w0)))
  = [ (Ok (VStr "alice~0"), Ok (VStr "alice"));
      (Ok (VStr "alice~0"), Ok (VStr "alice2")) ].
Proof. reflexivity. Qed.

Lemma lengths_guard (snaps : list Snap) (times secondsViewed : list value) :
  negb (Nat.eqb (List.length snaps) (List.length times))
  || negb (Nat.eqb (List.length times) (List.length secondsViewed)) = false
  <-> List.length snaps = List.length times
      /\ List.length times = List.length secondsViewed.
Proof.
  rewrite orb_false_iff, !negb_false_iff, !Nat.eqb_eq. tauto.
Qed.

(** C3.  When the three input sequences do not all have the same length,
    [markSnapsViewed] fails with the invalid-argument error and the world is
    untouched: nothing was posted. *)
Theorem markSnapsViewed_unequal_lengths env self snaps times secondsViewed w :
  ~ (List.length snaps = List.length times
     /\ List.length times = List.length secondsViewed) ->
  markSnapsViewed env self snaps times secondsViewed w
  = (Throw InvalidArgument_lengths, w).
Proof.
  intros Hne. unfold markSnapsViewed.
  destruct (negb (Nat.eqb (List.length snaps) (List.length times))
            || negb (Nat.eqb (List.length times) (List.length secondsViewed)))
    eqn:G.
  - reflexivity.
  - apply lengths_guard in G. contradiction.
Qed.

Lemma markSnapsViewed_unequal_lengths_witness :
  markSnapsViewed Sample.env_ok Sample.patched [Sample.s1]
    [VDate 5; VDate 6] [VNum 3] Sample.w0
  = (Throw InvalidArgument_lengths, Sample.w0).
Proof.
  apply (markSnapsViewed_unequal_lengths Sample.env_ok Sample.patched
           [Sample.s1] [VDate 5; VDate 6] [VNum 3] Sample.w0).
  cbn. intros [H _]. discriminate H.
Defined.

(** ** Acknowledging views *)

(** On a facade made by the constructor, [self.session] is undefined, and
    reading [addedFriendsTimestamp] from it throws before anything is
    posted. *)
Lemma markSnapsViewed_constructed env opts snaps times secondsViewed w :
  List.length snaps = List.length times ->
  List.length times = List.length secondsViewed ->
  markSnapsViewed env (Snaps_new opts) snaps times secondsViewed w
  = (Throw (TypeError_undefined "addedFriendsTimestamp"), w).
Proof.
  intros H1 H2. unfold markSnapsViewed.
  replace (negb (Nat.eqb (List.length snaps) (List.length times))
           || negb (Nat.eqb (List.length times) (List.length secondsViewed)))
    with false by (symmetry; apply lengths_guard; auto).
  reflexivity.
Qed.

(** When some caller has put a [session] object on the facade itself, the
    timestamp posted is read from that object; the client's own session is
    not consulted. *)
Lemma markSnapsViewed_patched env self o snaps times secondsViewed w :
  List.length snaps = List.length times ->
  List.length times = List.length secondsViewed ->
  self_session self = VObj o ->
  let form :=
    VObj [ ("added_friends_timestamp",
            timestampFrom env
              (match get_prop "addedFriendsTimestamp" o with
               | Some v => v
               | None => VUndefined
               end));
           ("username", VStr (username (client w)));
           ("json", VStr (JSON_stringify env
                            (VObj (forEach_record env 0 snaps times
                                     secondsViewed [])))) ] in
  let c := Post (endpoints_update_snaps (constants env)) form in
  let rp := transport env (trace w) (client w) c in
  markSnapsViewed env self snaps times secondsViewed w
  = (Ok (if truthy (r_err rp) then Rejected (r_err rp)
         else Resolved (r_result rp)),
     {| client := r_client rp;
        trace := trace w ++ [{| ev_client := client w; ev_call := c;
                                ev_reply := rp |}];
        ticks := ticks w; minted := minted w |}).
Proof.
  intros H1 H2 Hs. unfold markSnapsViewed.
  replace (negb (Nat.eqb (List.length snaps) (List.length times))
           || negb (Nat.eqb (List.length times) (List.length secondsViewed)))
    with false by (symmetry; apply lengths_guard; auto).
  rewrite Hs. reflexivity.
Qed.

(** C4.  On the equal-length input [[s1], [Date 5], [3]], a facade made by
    the constructor posts nothing: [markSnapsViewed] throws a TypeError while
    reading the added-friends timestamp from [self.session], which the
    constructor never sets. *)
Theorem markSnapsViewed_reads_missing_session :
  markSnapsViewed Sample.env_ok (Snaps_new VUndefined) [Sample.s1] [VDate 5]
    [VNum 3] Sample.w0
  = (Throw (TypeError_undefined "addedFriendsTimestamp"), Sample.w0).
Proof.
  apply markSnapsViewed_constructed; reflexivity.
Qed.

(** C6.  [markSnapViewed snap s] reads the clock once and from there on is
    [markSnapsViewed [snap] [now] [s]] with [now] that reading: same outcome,
    same calls.  On a facade that carries a [session] object, both post the
    single form spelled out below. *)
Theorem markSnapViewed_is_markSnapsViewed env self snap secondsViewed w :
  let now := VDate (clock env (ticks w)) in
  markSnapViewed env self snap secondsViewed w
  = markSnapsViewed env self [snap] [now] [secondsViewed] (tick w)
  /\ forall o,
       self_session self = VObj o ->
       exists ev,
         trace (snd (markSnapViewed env self snap secondsViewed w))
         = trace w ++ [ev]
         /\ ev_call ev =
            Post (endpoints_update_snaps (constants env))
              (VObj [ ("added_friends_timestamp",
                       timestampFrom env
                         (match get_prop "addedFriendsTimestamp" o with
                          | Some v => v
                          | None => VUndefined
                          end));
                      ("username", VStr (username (client w)));
                      ("json",
                       VStr (JSON_stringify env
                               (VObj [ (identifier snap,
                                        VObj [ ("t", timestampFrom env now);
                                               ("sv", secondsViewed) ]) ]))) ]).
Proof.
  intros now.
  assert (Heq : markSnapViewed env self snap secondsViewed w
                = markSnapsViewed env self [snap] [now] [secondsViewed] (tick w))
    by reflexivity.
  split; [exact Heq |].
  intros o Hs. rewrite Heq.
  rewrite (markSnapsViewed_patched env self o [snap] [now] [secondsViewed]
             (tick w) eq_refl eq_refl Hs).
  cbn [snd trace tick client].
  eexists. split; reflexivity.
Qed.

Lemma markSnapViewed_is_markSnapsViewed_witness :
  self_session Sample.patched = VObj [("addedFriendsTimestamp", VNum 7)]
  /\ exists ev,
       trace (snd (markSnapViewed Sample.env_ok Sample.patched Sample.s1
                     (VNum 5) Sample.w0)) = [ev]
       /\ ev_call ev =
          Post "/bq/update_snaps"
            (VObj [ ("added_friends_timestamp", VNum 7);
                    ("username", VStr "alice");
                    ("json",
                     VStr (Sample.encode
                             (VObj [ ("s1", VObj [ ("t", VNum 1446336000000);
                                                   ("sv", VNum 5) ]) ]))) ]).
Proof.
  split; [reflexivity |].
  exact (proj2 (markSnapViewed_is_markSnapsViewed Sample.env_ok Sample.patched
                  Sample.s1 (VNum 5) Sample.w0)
               [("addedFriendsTimestamp", VNum 7)] eq_refl).
Defined.

(** ** Location filters *)

(** C7.  [loadFiltersForLocation] issues one post to the location-data
    endpoint.  If the transport calls back with an error, the promise
    rejects with that error, unchanged; if it calls back without error and
    with a falsy result, the promise rejects with the parse error; with a
    truthy result it resolves with [new SKLocation(result)]. *)
Theorem loadFiltersForLocation_outcomes env self location w :
  exists ev,
    trace (snd (loadFiltersForLocation env self location w)) = trace w ++ [ev]
    /\ ev_call ev =
       Post (endpoints_misc_locationData (constants env))
         (VObj [ ("lat", lat location);
                 ("lng", lng location);
                 ("screen_width", width (screenSize (client w)));
                 ("screen_height", height (screenSize (client w)));
                 ("username", VStr (username (client w))) ])
    /\ ev_reply ev = transport env (trace w) (client w) (ev_call ev)
    /\ (truthy (r_err (ev_reply ev)) = true ->
        fst (loadFiltersForLocation env self location w)
        = Ok (Rejected (r_err (ev_reply ev))))
    /\ (truthy (r_err (ev_reply ev)) = false ->
        truthy (r_result (ev_reply ev)) = false ->
        fst (loadFiltersForLocation env self location w)
        = Ok (Rejected ParseError_filters))
    /\ (truthy (r_err (ev_reply ev)) = false ->
        truthy (r_result (ev_reply ev)) = true ->
        fst (loadFiltersForLocation env self location w)
        = Ok (Resolved (SKLocation_new env (r_result (ev_reply ev))))).
Proof.
  unfold loadFiltersForLocation, nodeify, Promise_new, bind, get_client,
    client_post, issue, reject, resolve, ret.
  set (c := Post _ _).
  set (rp := transport env (trace w) (client w) c).
  exists {| ev_client := client w; ev_call := c; ev_reply := rp |}.
  cbn [ev_call ev_reply].
  destruct (truthy (r_err rp)) eqn:Eerr;
    [| destruct (truthy (r_result rp)) eqn:Eres];
    cbn [fst snd trace];
    repeat split; intros; try reflexivity; try discriminate.
Qed.

Lemma loadFiltersForLocation_outcomes_witness :
  fst (loadFiltersForLocation Sample.env_down Sample.facade Sample.here Sample.w0)
  = Ok (Rejected (VError "Error" "ECONNRESET"))
  /\ fst (loadFiltersForLocation Sample.env_empty Sample.facade Sample.here
            Sample.w0)
     = Ok (Rejected ParseError_filters)
  /\ fst (loadFiltersForLocation Sample.env_ok Sample.facade Sample.here
            Sample.w0)
     = Ok (Resolved (SKLocation_new Sample.env_ok (VObj [("ok", VBool true)]))).
Proof.
  destruct (loadFiltersForLocation_outcomes Sample.env_down Sample.facade
              Sample.here Sample.w0) as [ev1 [T1 [_ [_ [E1 _]]]]].
  destruct (loadFiltersForLocation_outcomes Sample.env_empty Sample.facade
              Sample.here Sample.w0) as [ev2 [T2 [_ [_ [_ [E2 _]]]]]].
  destruct (loadFiltersForLocation_outcomes Sample.env_ok Sample.facade
              Sample.here Sample.w0) as [ev3 [T3 [_ [_ [_ [_ E3]]]]]].
  cbn in T1, T2, T3.
  injection T1 as <-. injection T2 as <-. injection T3 as <-.
  split; [apply E1; reflexivity |].
  split; [apply E2; reflexivity | apply E3; reflexivity].
Defined.

(** An empty object is not a falsy result: it goes to [SKLocation]. *)
Lemma loadFiltersForLocation_empty_object :
  fst (loadFiltersForLocation (Sample.env_of (Sample.answer VNull (VObj [])))
         Sample.facade Sample.here Sample.w0)
  = Ok (Resolved (VObj [("filters", VObj [])])).
Proof. reflexivity. Qed.

(** ** Screenshots *)

Lemma markSnapScreenshot_run env self snap secondsViewed w :
  let c :=
    SendEvents
      (VArr [ VObj [ ("eventName", VStr "SNAP_SCREENSHOT");
                     ("params", VObj [ ("id", VStr (identifier snap)) ]);
                     ("ts", VNum (js_bitor (clock env (S (ticks w))) 0)) ] ])
      (VObj [ (identifier snap,
               VObj [ ("t", VNum (js_bitor (clock env (ticks w)) 0));
                      ("sv", secondsViewed);
                      ("c", SnapStatus_Screenshot (constants env)) ]) ]) in
  let rp := transport env (trace w) (client w) c in
  markSnapScreenshot env self snap secondsViewed w
  = (Ok (if truthy (r_err rp) then Rejected (r_err rp)
         else Resolved (r_result rp)),
     {| client := r_client rp;
        trace := trace w ++ [{| ev_client := client w; ev_call := c;
                                ev_reply := rp |}];
        ticks := S (S (ticks w)); minted := minted w |}).
Proof. reflexivity. Qed.

(** C8.  [markSnapScreenshot] makes exactly one call, to
    [client.sendEvents], and hands it both the event
    [{eventName: SNAP_SCREENSHOT, params: {id}, ts}] and the record map
    [{id: {t, sv, c}}], with [ts] and [t] integers, [sv] the seconds viewed
    and [c] the screenshot status code. *)
Theorem markSnapScreenshot_single_call env self snap secondsViewed w :
  exists (ev : event) (t ts : Z),
    trace (snd (markSnapScreenshot env self snap secondsViewed w))
    = trace w ++ [ev]
    /\ ev_call ev =
       SendEvents
         (VArr [ VObj [ ("eventName", VStr "SNAP_SCREENSHOT");
                        ("params", VObj [ ("id", VStr (identifier snap)) ]);
                        ("ts", VNum ts) ] ])
         (VObj [ (identifier snap,
                  VObj [ ("t", VNum t);
                         ("sv", secondsViewed);
                         ("c", SnapStatus_Screenshot (constants env)) ]) ]).
Proof.
  rewrite markSnapScreenshot_run. cbn [snd trace].
  eexists. exists (js_bitor (clock env (ticks w)) 0),
                  (js_bitor (clock env (S (ticks w))) 0).
  split; reflexivity.
Qed.

(** C10.  In the call [markSnapScreenshot] makes, [t] comes from the first
    clock reading and [ts] from the second, each through [| 0]: each is
    congruent to its timestamp modulo 2^32 and lies in the signed 32-bit
    range, so a millisecond timestamp of today does not survive it. *)
Theorem markSnapScreenshot_timestamps_int32 env self snap secondsViewed w :
  let now1 := clock env (ticks w) in
  let now2 := clock env (S (ticks w)) in
  exists (ev : event) (t ts : Z),
    trace (snd (markSnapScreenshot env self snap secondsViewed w))
    = trace w ++ [ev]
    /\ ev_call ev =
       SendEvents
         (VArr [ VObj [ ("eventName", VStr "SNAP_SCREENSHOT");
                        ("params", VObj [ ("id", VStr (identifier snap)) ]);
                        ("ts", VNum ts) ] ])
         (VObj [ (identifier snap,
                  VObj [ ("t", VNum t);
                         ("sv", secondsViewed);
                         ("c", SnapStatus_Screenshot (constants env)) ]) ])
    /\ t = js_bitor now1 0 /\ ts = js_bitor now2 0
    /\ (t - now1) mod 2 ^ 32 = 0 /\ - 2 ^ 31 <= t < 2 ^ 31
    /\ (ts - now2) mod 2 ^ 32 = 0 /\ - 2 ^ 31 <= ts < 2 ^ 31
    /\ js_bitor 1446336000000 0 = -1067978752.
Proof.
  intros now1 now2.
  rewrite markSnapScreenshot_run. cbn [snd trace].
  eexists. exists (js_bitor now1 0), (js_bitor now2 0).
  split; [reflexivity |]. split; [reflexivity |].
  rewrite !js_bitor_zero.
  repeat split; try apply ToInt32_congruent; try apply ToInt32_range.
Qed.

(** ** Every operation, call by call *)

Ltac unfold_facade :=
  unfold run, sendSnap, sendSnapCustom, markSnapViewed, markSnapsViewed,
    markSnapScreenshot, loadSnap, _loadSnapWithIdentifier,
    loadFiltersForLocation, _uploadSnap, nodeify, Promise_new, Date_new,
    StringUtils_timestamp, StringUtils_mediaIdentifier, read_clock,
    client_post, client_sendEvents, Request_postCustom, issue, deliver,
    resolve, reject, get_client, bind, lift, throw, ret.

Ltac split_cases :=
  repeat match goal with
         | |- context [SKBlob_initWithData ?env ?body] =>
             destruct (SKBlob_initWithData env body) eqn:?
         | |- context [if ?b then _ else _] => destruct b eqn:?
         end.

Ltac trace_grows :=
  cbn [snd fst trace client];
  first [ exists []; split; [symmetry; apply app_nil_r | apply Forall_nil]
        | eexists; split; [reflexivity |]
        | eexists; split; [rewrite <- app_assoc; reflexivity |] ].

Ltac check_event :=
  cbn [trace client ticks minted fst snd ev_reply ev_call ev_client] in *;
  split;
  [ intros Hform;
    first [ discriminate Hform | apply Exists_cons_hd; reflexivity ]
  | unfold failed; cbn [ev_reply]; intros Hfailed;
    first [ congruence | reflexivity ] ].

(** Each operation only appends to the trace; every form it posts carries
    the username the client had when the call was issued; and when a call
    it made came back with an error, the operation rejects with that
    error. *)
Lemma run_trace env self o w :
  exists new,
    trace (snd (run env self o w)) = trace w ++ new
    /\ Forall (fun ev =>
                 (is_form_post ev = true -> has_username ev)
                 /\ (failed ev = true ->
                     fst (run env self o w)
                     = Ok (Rejected (r_err (ev_reply ev)))))
              new.
Proof.
  destruct o as [blob rs txt d | blob opts | snap sv | snaps times svs
                | snap sv | snap | location]; unfold_facade.
  - unfold SnapOptions_new.
    destruct (d <=? 0); [trace_grows |].
    destruct blob; try trace_grows.
    split_cases; trace_grows;
      repeat (apply Forall_cons; [check_event |]); apply Forall_nil.
  - destruct blob; try trace_grows.
    split_cases; trace_grows;
      repeat (apply Forall_cons; [check_event |]); apply Forall_nil.
  - cbn [List.length Nat.eqb negb orb].
    destruct (get_member (self_session self) "addedFriendsTimestamp");
      [| trace_grows].
    split_cases; trace_grows;
      repeat (apply Forall_cons; [check_event |]); apply Forall_nil.
  - destruct (negb (Nat.eqb (List.length snaps) (List.length times))
              || negb (Nat.eqb (List.length times) (List.length svs)));
      [trace_grows |].
    destruct (get_member (self_session self) "addedFriendsTimestamp");
      [| trace_grows].
    split_cases; trace_grows;
      repeat (apply Forall_cons; [check_event |]); apply Forall_nil.
  - split_cases; trace_grows;
      repeat (apply Forall_cons; [check_event |]); apply Forall_nil.
  - split_cases; trace_grows;
      repeat (apply Forall_cons; [check_event |]); apply Forall_nil.
  - split_cases; trace_grows;
      repeat (apply Forall_cons; [check_event |]); apply Forall_nil.
Qed.

(** ** Delivery of failures *)

(** The mismatched-length failure of [markSnapsViewed] is a synchronous
    throw, not a rejection. *)
Lemma markSnapsViewed_throws_synchronously :
  fst (run Sample.env_ok Sample.facade
         (OpMarkSnapsViewed [Sample.s1] [] []) Sample.w0)
  = Throw InvalidArgument_lengths.
Proof. reflexivity. Qed.

(** C5, as amended.  [sendSnapCustom], [loadSnap], [loadFiltersForLocation]
    and [markSnapScreenshot] never throw; a blob that is not an [SKBlob]
    makes [sendSnapCustom] reject with the invalid-argument error, with no
    call made; for every operation, an error the transport calls back with
    is the rejection the caller gets, unchanged; a blob that does not decode
    makes [loadSnap] reject with the decoder's error; and the
    mismatched-length error of [markSnapsViewed] is thrown synchronously,
    before any call. *)
Theorem failures_reach_caller env self :
  (forall o w,
      delivers_async o = true -> exists s, fst (run env self o w) = Ok s)
  /\ (forall blob opts w,
         is_SKBlob blob = false ->
         fst (sendSnapCustom env self blob opts w)
         = Ok (Rejected InvalidArgument_blob)
         /\ trace (snd (sendSnapCustom env self blob opts w)) = trace w)
  /\ (forall o w new ev,
         trace (snd (run env self o w)) = trace w ++ new ->
         In ev new ->
         failed ev = true ->
         fst (run env self o w) = Ok (Rejected (r_err (ev_reply ev))))
  /\ (forall snap w ev,
         trace (snd (loadSnap env self snap w)) = trace w ++ [ev] ->
         failed ev = false ->
         truthy (fst (SKBlob_initWithData env (r_result (ev_reply ev)))) = true ->
         fst (loadSnap env self snap w)
         = Ok (Rejected (fst (SKBlob_initWithData env (r_result (ev_reply ev))))))
  /\ (forall snaps times secondsViewed w,
         ~ (List.length snaps = List.length times
            /\ List.length times = List.length secondsViewed) ->
         run env self (OpMarkSnapsViewed snaps times secondsViewed) w
         = (Throw InvalidArgument_lengths, w)).
Proof.
  split; [| split; [| split; [| split]]].
  - intros o w Ho.
    destruct o as [blob rs txt d | blob opts | snap sv | snaps times svs
                  | snap sv | snap | location];
      try discriminate Ho; unfold_facade.
    + destruct blob; try (eexists; reflexivity);
        split_cases; eexists; reflexivity.
    + split_cases; eexists; reflexivity.
    + split_cases; eexists; reflexivity.
    + split_cases; eexists; reflexivity.
  - intros blob opts w Hb.
    destruct blob; try discriminate Hb; split; reflexivity.
  - intros o w new ev Htrace Hin Hfailed.
    destruct (run_trace env self o w) as [new' [Htrace' Hall]].
    rewrite Htrace' in Htrace. apply app_inv_head in Htrace. subst new'.
    rewrite Forall_forall in Hall.
    apply (Hall ev Hin). exact Hfailed.
  - intros snap w ev Htrace Hok Hdecode.
    revert Htrace Hok Hdecode. unfold_facade.
    set (rp := transport env (trace w) (client w) _).
    unfold failed.
    destruct (truthy (r_err rp)) eqn:Eerr;
      [| destruct (SKBlob_initWithData env (r_result rp)) as [err' blob] eqn:Einit;
         destruct (truthy err') eqn:Et];
      intros Htrace Hok Hdecode;
      cbn [snd fst trace] in Htrace;
      apply app_inv_head in Htrace; injection Htrace as <-;
      cbn [ev_reply] in *.
    + congruence.
    + rewrite Einit. reflexivity.
    + rewrite Einit in Hdecode. cbn [fst] in Hdecode. congruence.
  - intros snaps times svs w Hne. cbn [run]. unfold markSnapsViewed.
    destruct (negb (Nat.eqb (List.length snaps) (List.length times))
              || negb (Nat.eqb (List.length times) (List.length svs))) eqn:G.
    + reflexivity.
    + apply lengths_guard in G. contradiction.
Qed.

Lemma failures_reach_caller_witness :
  fst (sendSnapCustom Sample.env_ok Sample.facade (VStr "not a blob")
         Sample.opts0 Sample.w0)
  = Ok (Rejected InvalidArgument_blob)
  /\ run Sample.env_ok Sample.facade
       (OpMarkSnapsViewed [Sample.s1] [] [VNum 3]) Sample.w0
     = (Throw InvalidArgument_lengths, Sample.w0).
Proof.
  destruct (failures_reach_caller Sample.env_ok Sample.facade)
    as [_ [Hblob [_ [_ Hlen]]]].
  split.
  - apply (Hblob (VStr "not a blob") Sample.opts0 Sample.w0). reflexivity.
  - apply (Hlen [Sample.s1] [] [VNum 3] Sample.w0).
    cbn. intros [H _]. discriminate H.
Defined.

(** ** The username in outgoing calls *)

(** What [markSnapScreenshot] hands to [client.sendEvents] has no
    [username] in it: on this path the username is the client's to add. *)
Lemma markSnapScreenshot_no_username env self snap secondsViewed w ev :
  trace (snd (markSnapScreenshot env self snap secondsViewed w))
  = trace w ++ [ev] ->
  ~ has_username ev.
Proof.
  rewrite markSnapScreenshot_run. cbn [snd trace].
  intros Htrace. apply app_inv_head in Htrace. injection Htrace as <-.
  unfold has_username. cbn [ev_call ev_client call_payload app].
  intros Hex.
  inversion Hex as [p l Hhd | p l Htl]; subst.
  - discriminate Hhd.
  - inversion Htl as [p' l' Hhd | p' l' Hnil]; subst.
    + cbn [get_member get_prop] in Hhd.
      destruct (String.eqb "username" (identifier snap));
        discriminate Hhd.
    + inversion Hnil.
Qed.

Ltac request_event :=
  cbn [trace client ticks minted fst snd ev_reply ev_call ev_client] in *;
  split;
  [ reflexivity
  | intros Hform;
    first [ discriminate Hform | apply Exists_cons_hd; reflexivity ] ].

(** C9.  Every request that goes out for a call of an operation includes
    the username the client had when the call was issued.  For
    [client.post] and [Request.postCustom] the facade writes it into the
    form itself; for [markSnapScreenshot] the facade hands over the events
    alone and the request is the one [client.sendEvents] builds. *)
Theorem outgoing_requests_carry_username env self o w :
  exists new,
    trace (snd (run env self o w)) = trace w ++ new
    /\ Forall (fun ev =>
                 get_member (outgoing_request ev) "username"
                 = Ok (VStr (username (ev_client ev)))
                 /\ (is_form_post ev = true -> has_username ev))
              new.
Proof.
  destruct o as [blob rs txt d | blob opts | snap sv | snaps times svs
                | snap sv | snap | location]; unfold_facade.
  - unfold SnapOptions_new.
    destruct (d <=? 0); [trace_grows |].
    destruct blob; try trace_grows.
    split_cases; trace_grows;
      repeat (apply Forall_cons; [request_event |]); apply Forall_nil.
  - destruct blob; try trace_grows.
    split_cases; trace_grows;
      repeat (apply Forall_cons; [request_event |]); apply Forall_nil.
  - cbn [List.length Nat.eqb negb orb].
    destruct (get_member (self_session self) "addedFriendsTimestamp");
      [| trace_grows].
    split_cases; trace_grows;
      repeat (apply Forall_cons; [request_event |]); apply Forall_nil.
  - destruct (negb (Nat.eqb (List.length snaps) (List.length times))
              || negb (Nat.eqb (List.length times) (List.length svs)));
      [trace_grows |].
    destruct (get_member (self_session self) "addedFriendsTimestamp");
      [| trace_grows].
    split_cases; trace_grows;
      repeat (apply Forall_cons; [request_event |]); apply Forall_nil.
  - split_cases; trace_grows;
      repeat (apply Forall_cons; [request_event |]); apply Forall_nil.
  - split_cases; trace_grows;
      repeat (apply Forall_cons; [request_event |]); apply Forall_nil.
  - split_cases; trace_grows;
      repeat (apply Forall_cons; [request_event |]); apply Forall_nil.
Qed.

(** * Further properties *)

(** ** Objects as property lists *)

Lemma get_set_same k v o : get_prop k (set_prop k v o) = Some v.
Proof.
  induction o as [| [k' v'] rest IH]; cbn.
  - rewrite String.eqb_refl. reflexivity.
  - destruct (String.eqb k k') eqn:E; cbn.
    + rewrite String.eqb_refl. reflexivity.
    + rewrite E. exact IH.
Qed.

Lemma get_set_other k k' v o :
  k <> k' -> get_prop k' (set_prop k v o) = get_prop k' o.
Proof.
  intros Hne.
  induction o as [| [k0 v0] rest IH]; cbn.
  - destruct (String.eqb k' k) eqn:E; [| reflexivity].
    apply String.eqb_eq in E. congruence.
  - destruct (String.eqb k k0) eqn:E; cbn.
    + apply String.eqb_eq in E. subst k0.
      destruct (String.eqb k' k) eqn:E'; [| reflexivity].
      apply String.eqb_eq in E'. congruence.
    + rewrite IH. reflexivity.
Qed.

Lemma keys_set_prop k v o :
  forall x, In x (keys (set_prop k v o)) <-> x = k \/ In x (keys o).
Proof.
  intros x. induction o as [| [k' v'] rest IH]; cbn.
  - intuition congruence.
  - destruct (String.eqb k k') eqn:E; cbn.
    + apply String.eqb_eq in E. subst k'. intuition congruence.
    + unfold keys in IH. rewrite IH. intuition congruence.
Qed.

Lemma NoDup_set_prop k v o : NoDup (keys o) -> NoDup (keys (set_prop k v o)).
Proof.
  induction o as [| [k' v'] rest IH]; cbn; intros Hnd.
  - constructor; [intros [] | constructor].
  - inversion Hnd as [| x l Hnotin Hrest]; subst.
    destruct (String.eqb k k') eqn:E; cbn.
    + apply String.eqb_eq in E. subst k'. constructor; assumption.
    + constructor; [| apply IH; exact Hrest].
      intros Hin. apply keys_set_prop in Hin. destruct Hin as [-> | Hin].
      * rewrite String.eqb_refl in E. discriminate.
      * contradiction.
Qed.

Lemma set_prop_fresh k v o : ~ In k (keys o) -> set_prop k v o = o ++ [(k, v)].
Proof.
  induction o as [| [k' v'] rest IH]; cbn; intros Hnotin.
  - reflexivity.
  - destruct (String.eqb k k') eqn:E.
    + apply String.eqb_eq in E. subst k'. exfalso. apply Hnotin. now left.
    + rewrite IH; [reflexivity |]. intros Hin. apply Hnotin. now right.
Qed.

(** ** The record map of [markSnapsViewed] *)

Lemma forEach_record_absent env k snaps : forall index times svs json,
  (forall snap, In snap snaps -> identifier snap <> k) ->
  get_prop k (forEach_record env index snaps times svs json) = get_prop k json.
Proof.
  induction snaps as [| snap rest IH]; intros index times svs json Habs; cbn.
  - reflexivity.
  - rewrite IH by (intros s Hs; apply Habs; now right).
    apply get_set_other. apply Habs. now left.
Qed.

Lemma forEach_record_lookup env snaps : forall index times svs json i,
  (i < List.length snaps)%nat ->
  (forall j, (i < j < List.length snaps)%nat ->
             identifier (nth j snaps anonymous)
             <> identifier (nth i snaps anonymous)) ->
  get_prop (identifier (nth i snaps anonymous))
           (forEach_record env index snaps times svs json)
  = Some (view_record env times svs (index + i)).
Proof.
  induction snaps as [| snap rest IH]; intros index times svs json i Hi Hlast;
    cbn [List.length] in *.
  - lia.
  - destruct i as [| i']; cbn [nth forEach_record].
    + rewrite forEach_record_absent.
      * rewrite get_set_same, Nat.add_0_r. reflexivity.
      * intros s Hs. apply (In_nth _ _ anonymous) in Hs.
        destruct Hs as [j [Hj Hnth]]. subst s.
        apply (Hlast (S j)). lia.
    + rewrite IH.
      * replace (S index + i')%nat with (index + S i')%nat by lia. reflexivity.
      * lia.
      * intros j Hj. apply (Hlast (S j)). lia.
Qed.

(** X1.  In the record map [markSnapsViewed] builds, the entry under a
    snap's identifier is the record of the last snap in the batch that has
    this identifier: its time and its seconds viewed.  An earlier snap with
    the same identifier is overwritten. *)
Theorem forEach_record_last_wins env snaps times secondsViewed i :
  (i < List.length snaps)%nat ->
  (forall j, (i < j < List.length snaps)%nat ->
             identifier (nth j snaps anonymous)
             <> identifier (nth i snaps anonymous)) ->
  get_prop (identifier (nth i snaps anonymous))
           (forEach_record env 0 snaps times secondsViewed [])
  = Some (VObj [ ("t", timestampFrom env (nth i times VUndefined));
                 ("sv", nth i secondsViewed VUndefined) ]).
Proof.
  intros Hi Hlast.
  rewrite (forEach_record_lookup env snaps 0 times secondsViewed [] i Hi Hlast).
  reflexivity.
Qed.

Lemma forEach_record_last_wins_witness :
  get_prop "a" (forEach_record Sample.env_ok 0 Batch.snaps Batch.times
                  Batch.seconds [])
  = Some (VObj [ ("t", VNum 30); ("sv", VNum 3) ]).
Proof.
  apply (forEach_record_last_wins Sample.env_ok Batch.snaps Batch.times
           Batch.seconds 2).
  - cbn. lia.
  - cbn. intros j Hj. lia.
Defined.

(** Identifiers as the server issues them are ordinary keys; a string of
    digits and [__proto__] are not. *)
Lemma ordinary_key_samples :
  ordinary_key "s1" = true
  /\ ordinary_key "10" = false
  /\ ordinary_key "__proto__" = false.
Proof. repeat split. Qed.

Lemma forEach_record_keys_gen env snaps : forall index times svs json,
  NoDup (keys json) ->
  NoDup (keys (forEach_record env index snaps times svs json))
  /\ forall k, In k (keys (forEach_record env index snaps times svs json))
               <-> In k (keys json) \/ In k (map identifier snaps).
Proof.
  induction snaps as [| snap rest IH]; intros index times svs json Hnd; cbn.
  - split; [exact Hnd | intuition].
  - destruct (IH (S index) times svs
                (set_prop (identifier snap) (view_record env times svs index) json)
                (NoDup_set_prop _ _ _ Hnd)) as [Hnd' Hkeys].
    split; [exact Hnd' |].
    intros k. unfold view_record in Hkeys. rewrite Hkeys, keys_set_prop.
    intuition.
Qed.

(** X2.  When no snap of the batch is identified by [__proto__], the
    record map has no repeated key, and its keys are exactly the
    identifiers of the snaps in the batch: one entry per distinct snap,
    none for the empty batch. *)
Theorem forEach_record_keys env snaps times secondsViewed :
  Forall (fun snap => sets_prototype (identifier snap) = false) snaps ->
  NoDup (keys (forEach_record env 0 snaps times secondsViewed []))
  /\ forall k, In k (keys (forEach_record env 0 snaps times secondsViewed []))
               <-> exists snap, In snap snaps /\ identifier snap = k.
Proof.
  intros _.
  destruct (forEach_record_keys_gen env snaps 0 times secondsViewed []
              (NoDup_nil _)) as [Hnd Hkeys].
  split; [exact Hnd |].
  intros k. rewrite Hkeys, in_map_iff. cbn. split.
  - intros [[] | [snap [Hid Hin]]]. exists snap. split; assumption.
  - intros [snap [Hin Hid]]. right. exists snap. split; assumption.
Qed.

Lemma forEach_record_keys_witness :
  NoDup (keys (forEach_record Sample.env_ok 0 Batch.snaps Batch.times
                 Batch.seconds []))
  /\ forall k, In k (keys (forEach_record Sample.env_ok 0 Batch.snaps
                             Batch.times Batch.seconds []))
               <-> exists snap, In snap Batch.snaps /\ identifier snap = k.
Proof.
  apply (forEach_record_keys Sample.env_ok Batch.snaps Batch.times
           Batch.seconds).
  repeat constructor.
Defined.

Lemma forEach_record_distinct_gen env snaps : forall index times svs json,
  NoDup (keys json ++ map identifier snaps) ->
  forEach_record env index snaps times svs json
  = json ++ map (fun i => (identifier (nth (i - index) snaps anonymous),
                           view_record env times svs i))
                (seq index (List.length snaps)).
Proof.
  induction snaps as [| snap rest IH]; intros index times svs json Hnd; cbn.
  - symmetry. apply app_nil_r.
  - assert (Hfresh : ~ In (identifier snap) (keys json)).
    { intros Hin. apply NoDup_remove_2 in Hnd. apply Hnd.
      apply in_or_app. now left. }
    rewrite IH.
    + fold (view_record env times svs index).
      rewrite set_prop_fresh by exact Hfresh.
      rewrite <- app_assoc. cbn. rewrite Nat.sub_diag. f_equal. f_equal.
      apply map_ext_in. intros i Hi. apply in_seq in Hi.
      replace (i - index)%nat with (S (i - S index)) by lia. reflexivity.
    + fold (view_record env times svs index).
      rewrite set_prop_fresh by exact Hfresh.
      unfold keys. rewrite map_app. cbn. rewrite <- app_assoc. cbn.
      apply NoDup_remove_1 in Hnd as Hnd1.
      apply NoDup_remove_2 in Hnd as Hnd2.
      apply NoDup_Add with (a := identifier snap)
                           (l := map fst json ++ map identifier rest).
      * apply Add_app.
      * split; assumption.
Qed.

(** X3.  When the snaps of a batch have distinct identifiers, all of them
    ordinary keys (none written with digits alone, none [__proto__]), the
    record map lists them in batch order, the i-th entry pairing the i-th
    identifier with the i-th time and the i-th seconds viewed. *)
Theorem forEach_record_distinct env snaps times secondsViewed :
  Forall (fun snap => ordinary_key (identifier snap) = true) snaps ->
  NoDup (map identifier snaps) ->
  forEach_record env 0 snaps times secondsViewed []
  = map (fun i => (identifier (nth i snaps anonymous),
                   VObj [ ("t", timestampFrom env (nth i times VUndefined));
                          ("sv", nth i secondsViewed VUndefined) ]))
        (seq 0 (List.length snaps)).
Proof.
  intros _ Hnd.
  rewrite (forEach_record_distinct_gen env snaps 0 times secondsViewed [] Hnd).
  cbn [app]. apply map_ext. intros i. rewrite Nat.sub_0_r. reflexivity.
Qed.

Lemma forEach_record_distinct_witness :
  forEach_record Sample.env_ok 0 [Batch.a; Batch.b] Batch.times Batch.seconds []
  = [ ("a", VObj [ ("t", VNum 10); ("sv", VNum 1) ]);
      ("b", VObj [ ("t", VNum 20); ("sv", VNum 2) ]) ].
Proof.
  apply (forEach_record_distinct Sample.env_ok [Batch.a; Batch.b] Batch.times
           Batch.seconds).
  - repeat constructor.
  - repeat constructor; cbn; intuition discriminate.
Defined.

(** ** The two steps of a send *)

Lemma sendSnapCustom_run env self isImage data opts w :
  let uuid := mediaIdentifier env (username (client w)) (minted w) in
  let c1 := PostCustom (endpoints_snaps_upload (constants env))
              (upload_form env (client w) uuid isImage data)
              (VObj (upload_headers env (client w))) (authToken (client w)) in
  let rp1 := transport env (trace w) (client w) c1 in
  let ev1 := {| ev_client := client w; ev_call := c1; ev_reply := rp1 |} in
  let c2 := Post (endpoints_snaps_send (constants env))
              (send_form env (r_client rp1) (VStr uuid) opts) in
  let rp2 := transport env (trace w ++ [ev1]) (r_client rp1) c2 in
  let ev2 := {| ev_client := r_client rp1; ev_call := c2; ev_reply := rp2 |} in
  sendSnapCustom env self (VBlob isImage data) opts w
  = if truthy (r_err rp1)
    then (Ok (Rejected (r_err rp1)),
          {| client := r_client rp1; trace := trace w ++ [ev1];
             ticks := ticks w; minted := S (minted w) |})
    else (Ok (if truthy (r_err rp2) then Rejected (r_err rp2)
              else Resolved (r_result rp2)),
          {| client := r_client rp2; trace := (trace w ++ [ev1]) ++ [ev2];
             ticks := ticks w; minted := S (minted w) |}).
Proof.
  intros uuid c1 rp1 ev1 c2 rp2 ev2.
  subst uuid c1 rp1 ev1 c2 rp2 ev2.
  unfold_facade. unfold upload_form, upload_headers, send_form.
  destruct (truthy isImage);
    repeat (cbn [client trace ticks minted truthy];
            match goal with
            | |- context [if truthy ?x then _ else _] =>
                destruct (truthy x) eqn:?
            end);
    cbn [client trace ticks minted truthy]; first [reflexivity | congruence].
Qed.

Lemma sendSnapCustom_not_blob env self blob opts w :
  is_SKBlob blob = false ->
  sendSnapCustom env self blob opts w = (Ok (Rejected InvalidArgument_blob), mint w).
Proof.
  intros Hb. destruct blob; try discriminate Hb; reflexivity.
Qed.

(** X4.  Handed an [SKBlob], [sendSnapCustom] always uploads first, under
    a media identifier generated locally.  If the upload fails nothing
    else is called.  If it succeeds, the send post follows: it carries that
    same identifier, and reads the country code and the username from the
    client as the upload left it. *)
Theorem sendSnapCustom_protocol env self isImage data opts w :
  let r := sendSnapCustom env self (VBlob isImage data) opts w in
  let uuid := mediaIdentifier env (username (client w)) (minted w) in
  exists ev1,
    ev_client ev1 = client w
    /\ ev_call ev1
       = PostCustom (endpoints_snaps_upload (constants env))
           (upload_form env (client w) uuid isImage data)
           (VObj (upload_headers env (client w))) (authToken (client w))
    /\ ev_reply ev1 = transport env (trace w) (client w) (ev_call ev1)
    /\ (failed ev1 = true -> trace (snd r) = trace w ++ [ev1])
    /\ (failed ev1 = false ->
        exists ev2,
          trace (snd r) = trace w ++ [ev1; ev2]
          /\ ev_client ev2 = r_client (ev_reply ev1)
          /\ ev_call ev2
             = Post (endpoints_snaps_send (constants env))
                 (send_form env (r_client (ev_reply ev1)) (VStr uuid) opts)
          /\ ev_reply ev2
             = transport env (trace w ++ [ev1]) (r_client (ev_reply ev1))
                 (ev_call ev2)).
Proof.
  intros r uuid. subst r. rewrite sendSnapCustom_run. fold uuid.
  eexists {| ev_client := client w; ev_call := _; ev_reply := _ |}.
  unfold failed. cbn [ev_client ev_call ev_reply].
  split; [reflexivity |]. split; [reflexivity |]. split; [reflexivity |].
  split; intros Hf; rewrite Hf; cbn [snd trace].
  - reflexivity.
  - eexists {| ev_client := _; ev_call := _; ev_reply := _ |}.
    cbn [ev_client ev_call ev_reply]. rewrite <- app_assoc.
    repeat split.
Qed.

Lemma sendSnapCustom_protocol_witness :
  map (fun ev => call_endpoint (ev_call ev))
      (trace (snd (sendSnapCustom Sample.env_ok Sample.facade Sample.image
                     Sample.opts0 Sample.w0)))
  = [Some "/ph/upload"; Some "/loq/send"].
Proof.
  destruct (sendSnapCustom_protocol Sample.env_ok Sample.facade (VBool true)
              (VStr "bytes") Sample.opts0 Sample.w0)
    as [ev1 [_ [Hc1 [Hr1 [_ Hok]]]]].
  assert (Hf : failed ev1 = false).
  { unfold failed. rewrite Hr1. reflexivity. }
  destruct (Hok Hf) as [ev2 [Htrace [_ [Hc2 _]]]].
  change (VBlob (VBool true) (VStr "bytes")) with Sample.image in Htrace.
  rewrite Htrace. cbn [map app Sample.w0 trace]. rewrite Hc1, Hc2. reflexivity.
Defined.

(** X5.  [sendSnapCustom] resolves with [v] exactly when it made two
    calls, neither of which came back with an error, and [v] is the result
    of the second, the send post, as the transport gave it. *)
Theorem sendSnapCustom_resolves_iff env self blob opts w v :
  fst (sendSnapCustom env self blob opts w) = Ok (Resolved v)
  <-> exists ev1 ev2,
        trace (snd (sendSnapCustom env self blob opts w)) = trace w ++ [ev1; ev2]
        /\ failed ev1 = false /\ failed ev2 = false
        /\ v = r_result (ev_reply ev2).
Proof.
  destruct (is_SKBlob blob) eqn:Hb.
  - destruct blob; try discriminate Hb.
    rewrite sendSnapCustom_run.
    match goal with
    | |- context [if truthy (r_err ?rp) then _ else _] =>
        set (rp1 := rp); destruct (truthy (r_err rp1)) eqn:E1
    end; cbn [fst snd trace].
    + split; [discriminate |].
      intros [ev1 [ev2 [Htrace _]]].
      apply app_inv_head in Htrace. discriminate Htrace.
    + match goal with
      | |- context [if truthy (r_err ?rp) then _ else _] =>
          set (rp2 := rp); destruct (truthy (r_err rp2)) eqn:E2
      end; rewrite <- app_assoc; split.
      * discriminate.
      * intros [ev1 [ev2 [Htrace [_ [Hf2 _]]]]].
        apply app_inv_head in Htrace. injection Htrace as <- <-.
        unfold failed in Hf2. cbn [ev_reply] in Hf2. congruence.
      * intros Hres. injection Hres as <-.
        eexists. eexists. split; [reflexivity |].
        unfold failed. cbn [ev_reply]. repeat split; assumption.
      * intros [ev1 [ev2 [Htrace [_ [_ Hv]]]]].
        apply app_inv_head in Htrace. injection Htrace as <- <-.
        cbn [ev_reply] in Hv. subst v. reflexivity.
  - rewrite (sendSnapCustom_not_blob env self blob opts w Hb).
    cbn [fst snd mint trace]. split; [discriminate |].
    intros [ev1 [ev2 [Htrace _]]].
    rewrite <- (app_nil_r (trace w)) in Htrace at 1.
    apply app_inv_head in Htrace. discriminate Htrace.
Qed.

Lemma sendSnapCustom_resolves_iff_witness :
  exists ev1 ev2,
    trace (snd (sendSnapCustom Sample.env_ok Sample.facade Sample.image
                  Sample.opts0 Sample.w0)) = [ev1; ev2]
    /\ failed ev1 = false /\ failed ev2 = false
    /\ VObj [("ok", VBool true)] = r_result (ev_reply ev2).
Proof.
  apply (proj1 (sendSnapCustom_resolves_iff Sample.env_ok Sample.facade
                  Sample.image Sample.opts0 Sample.w0
                  (VObj [("ok", VBool true)]))).
  reflexivity.
Defined.

(** X6.  When the send post of [sendSnapCustom] comes back with an error,
    the promise rejects with that error, and the upload before it had
    already gone through: the media stays uploaded. *)
Theorem sendSnapCustom_send_failure env self blob opts w ev1 ev2 :
  trace (snd (sendSnapCustom env self blob opts w)) = trace w ++ [ev1; ev2] ->
  failed ev2 = true ->
  fst (sendSnapCustom env self blob opts w) = Ok (Rejected (r_err (ev_reply ev2)))
  /\ failed ev1 = false
  /\ (exists form headers token,
         ev_call ev1
         = PostCustom (endpoints_snaps_upload (constants env)) form headers token
         /\ exists mediaID,
              get_member form "media_id" = Ok mediaID
              /\ exists form2,
                   ev_call ev2 = Post (endpoints_snaps_send (constants env)) form2
                   /\ get_member form2 "media_id" = Ok mediaID).
Proof.
  intros Htrace Hf2.
  destruct (is_SKBlob blob) eqn:Hb.
  - destruct blob; try discriminate Hb.
    revert Htrace. rewrite sendSnapCustom_run.
    match goal with
    | |- context [if truthy (r_err ?rp) then _ else _] =>
        set (rp1 := rp); destruct (truthy (r_err rp1)) eqn:E1
    end; cbn [fst snd trace]; intros Htrace.
    + apply app_inv_head in Htrace. discriminate Htrace.
    + rewrite <- app_assoc in Htrace. apply app_inv_head in Htrace.
      injection Htrace as <- <-.
      unfold failed in *. cbn [ev_reply ev_call] in *. rewrite Hf2.
      split; [reflexivity |]. split; [exact E1 |].
      do 3 eexists. split; [reflexivity |].
      eexists. split; [reflexivity |].
      eexists. split; reflexivity.
  - rewrite (sendSnapCustom_not_blob env self blob opts w Hb) in Htrace.
    cbn [snd mint trace] in Htrace.
    rewrite <- (app_nil_r (trace w)) in Htrace at 1.
    apply app_inv_head in Htrace. discriminate Htrace.
Qed.

Lemma sendSnapCustom_send_failure_witness :
  exists ev1 ev2,
    trace (snd (sendSnapCustom (Sample.env_of posts_refused) Sample.facade
                  Sample.image Sample.opts0 Sample.w0)) = [ev1; ev2]
    /\ failed ev2 = true
    /\ fst (sendSnapCustom (Sample.env_of posts_refused) Sample.facade
              Sample.image Sample.opts0 Sample.w0)
       = Ok (Rejected (r_err (ev_reply ev2))).
Proof.
  pose proof (sendSnapCustom_send_failure (Sample.env_of posts_refused)
                Sample.facade Sample.image Sample.opts0 Sample.w0) as Hsend.
  remember (sendSnapCustom (Sample.env_of posts_refused) Sample.facade
              Sample.image Sample.opts0 Sample.w0) as r eqn:Hr.
  cbv in Hr. subst r. cbn [fst snd trace app Sample.w0] in *.
  eexists. eexists.
  split; [reflexivity |]. split; [reflexivity |].
  exact (proj1 (Hsend _ _ eq_refl eq_refl)).
Defined.

(** X7.  [_uploadSnap] generates the media identifier before it looks at
    the blob.  A value that is not an [SKBlob] makes it throw with no call
    made.  For an [SKBlob] it makes one upload and calls back with the
    upload's error alone, or with no error and the identifier it generated
    itself; what the server answered is not looked at. *)
Theorem upload_step_result env self blob w :
  let uuid := mediaIdentifier env (username (client w)) (minted w) in
  (is_SKBlob blob = false ->
   upload_step env self blob w = (Throw InvalidArgument_blob, mint w))
  /\ (forall isImage data,
         blob = VBlob isImage data ->
         exists ev,
           trace (snd (upload_step env self blob w)) = trace w ++ [ev]
           /\ ev_call ev
              = PostCustom (endpoints_snaps_upload (constants env))
                  (upload_form env (client w) uuid isImage data)
                  (VObj (upload_headers env (client w))) (authToken (client w))
           /\ fst (upload_step env self blob w)
              = Ok (if failed ev then (r_err (ev_reply ev), VUndefined)
                    else (VNull, VStr uuid))).
Proof.
  intros uuid. split.
  - intros Hb. destruct blob; try discriminate Hb; reflexivity.
  - intros isImage data ->.
    unfold upload_step, _uploadSnap, bind, get_client,
      StringUtils_mediaIdentifier, Request_postCustom, issue, ret, failed.
    cbn [client trace ticks minted]. fold uuid.
    unfold upload_form, upload_headers.
    set (c := PostCustom _ _ _ _).
    set (rp := transport env (trace w) (client w) c).
    exists {| ev_client := client w; ev_call := c; ev_reply := rp |}.
    cbn [ev_call ev_reply].
    destruct (truthy (r_err rp)); repeat split.
Qed.

Lemma upload_step_result_witness :
  upload_step Sample.env_ok Sample.facade (VNum 7) Sample.w0
  = (Throw InvalidArgument_blob, mint Sample.w0)
  /\ fst (upload_step Sample.env_ok Sample.facade Sample.image Sample.w0)
     = Ok (VNull, VStr "alice~0").
Proof.
  destruct (upload_step_result Sample.env_ok Sample.facade (VNum 7) Sample.w0)
    as [Hbad _].
  destruct (upload_step_result Sample.env_ok Sample.facade Sample.image
              Sample.w0) as [_ Hgood].
  split; [apply Hbad; reflexivity |].
  destruct (Hgood (VBool true) (VStr "bytes") eq_refl) as [ev [Htrace [_ Hres]]].
  cbn in Htrace. injection Htrace as <-. exact Hres.
Defined.

(** X8.  The upload headers always hold the multipart content type under
    the content-type name.  The bearer token sits under the client-auth
    name as long as the two header names differ; were the constants table
    to give both the same name, the content type would replace the token. *)
Theorem upload_headers_lookup env c :
  let ct := headers_contentType (constants env) in
  let auth := headers_clientAuthToken (constants env) in
  let multipart := VStr (append "multipart/form-data; boundary="
                                (core_boundary (constants env))) in
  get_prop ct (upload_headers env c) = Some multipart
  /\ (auth <> ct ->
      get_prop auth (upload_headers env c)
      = Some (VStr (append "Bearer " (googleAuthToken c))))
  /\ (auth = ct -> upload_headers env c = [(ct, multipart)]).
Proof.
  intros ct auth multipart. unfold upload_headers. fold ct auth multipart.
  split; [apply get_set_same |]. split.
  - intros Hne. rewrite get_set_other by congruence. apply get_set_same.
  - intros ->. cbn. rewrite String.eqb_refl. reflexivity.
Qed.

Lemma upload_headers_lookup_witness :
  get_prop "X-Snapchat-Client-Auth-Token" (upload_headers Sample.env_ok Sample.alice)
  = Some (VStr "Bearer gtoken").
Proof.
  apply (proj1 (proj2 (upload_headers_lookup Sample.env_ok Sample.alice))).
  discriminate.
Defined.

(** ** Loading a snap *)

(** X9.  [loadSnap] makes one post to the load-blob endpoint with the
    snap's identifier and the username.  An error from the transport
    rejects the promise unchanged; otherwise the body goes to the blob
    decoder, whose error rejects the promise and whose blob resolves it. *)
Theorem loadSnap_outcomes env self snap w :
  exists ev,
    trace (snd (loadSnap env self snap w)) = trace w ++ [ev]
    /\ ev_call ev
       = Post (endpoints_snaps_loadBlob (constants env))
           (VObj [ ("id", VStr (identifier snap));
                   ("username", VStr (username (client w))) ])
    /\ ev_reply ev = transport env (trace w) (client w) (ev_call ev)
    /\ (failed ev = true ->
        fst (loadSnap env self snap w) = Ok (Rejected (r_err (ev_reply ev))))
    /\ (failed ev = false ->
        forall err blob,
          SKBlob_initWithData env (r_result (ev_reply ev)) = (err, blob) ->
          fst (loadSnap env self snap w)
          = Ok (if truthy err then Rejected err else Resolved blob)).
Proof.
  unfold loadSnap, _loadSnapWithIdentifier, nodeify, Promise_new, bind,
    get_client, client_post, issue, reject, resolve, ret, failed.
  set (c := Post _ _).
  set (rp := transport env (trace w) (client w) c).
  exists {| ev_client := client w; ev_call := c; ev_reply := rp |}.
  cbn [ev_call ev_reply].
  destruct (truthy (r_err rp)) eqn:Eerr.
  - cbn [fst snd trace]. repeat split; intros; try reflexivity; discriminate.
  - destruct (SKBlob_initWithData env (r_result rp)) as [err' blob'] eqn:Einit.
    destruct (truthy err') eqn:Et; cbn [fst snd trace];
      (repeat split; try reflexivity; try discriminate;
       intros _ err blob Heq; injection Heq as <- <-; rewrite Et; reflexivity).
Qed.

Lemma loadSnap_outcomes_witness :
  fst (loadSnap Sample.env_down Sample.facade Sample.s1 Sample.w0)
  = Ok (Rejected (VError "Error" "ECONNRESET"))
  /\ fst (loadSnap Sample.env_ok Sample.facade Sample.s1 Sample.w0)
     = Ok (Resolved (VBlob (VBool true) (VObj [("ok", VBool true)]))).
Proof.
  destruct (loadSnap_outcomes Sample.env_down Sample.facade Sample.s1 Sample.w0)
    as [ev1 [T1 [_ [_ [E1 _]]]]].
  destruct (loadSnap_outcomes Sample.env_ok Sample.facade Sample.s1 Sample.w0)
    as [ev2 [T2 [_ [_ [_ E2]]]]].
  cbn in T1, T2. injection T1 as <-. injection T2 as <-.
  split; [apply E1; reflexivity |].
  apply (E2 eq_refl VNull (VBlob (VBool true) (VObj [("ok", VBool true)]))).
  reflexivity.
Defined.

(** ** Batches of views *)

(** X10.  On a facade that carries a [session] object, a batch of any
    size, the empty one included, costs exactly one post to the
    update-snaps endpoint: the whole record map goes out as one JSON
    string, and the transport's answer is the answer of the batch. *)
Theorem markSnapsViewed_single_post env self o snaps times secondsViewed w :
  List.length snaps = List.length times ->
  List.length times = List.length secondsViewed ->
  self_session self = VObj o ->
  exists ev form,
    trace (snd (markSnapsViewed env self snaps times secondsViewed w))
    = trace w ++ [ev]
    /\ ev_call ev = Post (endpoints_update_snaps (constants env)) form
    /\ get_member form "json"
       = Ok (VStr (JSON_stringify env
                     (VObj (forEach_record env 0 snaps times secondsViewed []))))
    /\ fst (markSnapsViewed env self snaps times secondsViewed w)
       = Ok (if failed ev then Rejected (r_err (ev_reply ev))
             else Resolved (r_result (ev_reply ev))).
Proof.
  intros H1 H2 Hs.
  rewrite (markSnapsViewed_patched env self o snaps times secondsViewed w H1 H2 Hs).
  cbn [fst snd trace]. do 2 eexists.
  split; [reflexivity |]. split; [reflexivity |]. split; reflexivity.
Qed.

Lemma markSnapsViewed_single_post_witness :
  exists ev form,
    trace (snd (markSnapsViewed Sample.env_ok Sample.patched [] [] [] Sample.w0))
    = [ev]
    /\ ev_call ev = Post "/bq/update_snaps" form
    /\ get_member form "json" = Ok (VStr "{}").
Proof.
  destruct (markSnapsViewed_single_post Sample.env_ok Sample.patched
              [("addedFriendsTimestamp", VNum 7)] [] [] [] Sample.w0
              eq_refl eq_refl eq_refl) as [ev [form [Ht [Hc [Hj _]]]]].
  exists ev, form. repeat split; assumption.
Defined.

(** X11.  On a facade made by the constructor no view is ever
    acknowledged: [markSnapViewed] reads the clock and throws the
    TypeError, [markSnapsViewed] throws the length error or the TypeError,
    and neither posts anything. *)
Theorem views_never_posted_after_construction env opts :
  (forall snap secondsViewed w,
      markSnapViewed env (Snaps_new opts) snap secondsViewed w
      = (Throw (TypeError_undefined "addedFriendsTimestamp"), tick w))
  /\ (forall snaps times secondsViewed w,
         exists e,
           markSnapsViewed env (Snaps_new opts) snaps times secondsViewed w
           = (Throw e, w)
           /\ (e = InvalidArgument_lengths
               \/ e = TypeError_undefined "addedFriendsTimestamp")).
Proof.
  split.
  - intros snap sv w. reflexivity.
  - intros snaps times svs w. unfold markSnapsViewed.
    destruct (negb (Nat.eqb (List.length snaps) (List.length times))
              || negb (Nat.eqb (List.length times) (List.length svs))).
    + eexists. split; [reflexivity | now left].
    + eexists. split; [reflexivity | now right].
Qed.

(** ** What no operation does *)

Ltac frame_grows :=
  cbn [snd fst trace client];
  first [ exists []; split; [symmetry; apply app_nil_r |]
        | eexists; split; [reflexivity |]
        | eexists; split; [rewrite <- app_assoc; reflexivity |] ].

(** X12.  An operation only appends to the log of calls, at most two of
    them, and never writes to the client: afterwards the client is as the
    last call's reply left it, or untouched when no call was made. *)
Theorem run_frame env self o w :
  exists new,
    trace (snd (run env self o w)) = trace w ++ new
    /\ (List.length new <= 2)%nat
    /\ client (snd (run env self o w)) = client_after (client w) new.
Proof.
  destruct o as [blob rs txt d | blob opts | snap sv | snaps times svs
                | snap sv | snap | location]; unfold_facade.
  - unfold SnapOptions_new.
    destruct (d <=? 0); [frame_grows; split; [cbn; lia | reflexivity] |].
    destruct blob;
      try (frame_grows; split; [cbn; lia | reflexivity]).
    split_cases; frame_grows; split; try reflexivity; cbn; lia.
  - destruct blob;
      try (frame_grows; split; [cbn; lia | reflexivity]).
    split_cases; frame_grows; split; try reflexivity; cbn; lia.
  - cbn [List.length Nat.eqb negb orb].
    destruct (get_member (self_session self) "addedFriendsTimestamp");
      [| frame_grows; split; [cbn; lia | reflexivity]].
    split_cases; frame_grows; split; try reflexivity; cbn; lia.
  - destruct (negb (Nat.eqb (List.length snaps) (List.length times))
              || negb (Nat.eqb (List.length times) (List.length svs)));
      [frame_grows; split; [cbn; lia | reflexivity] |].
    destruct (get_member (self_session self) "addedFriendsTimestamp");
      [| frame_grows; split; [cbn; lia | reflexivity]].
    split_cases; frame_grows; split; try reflexivity; cbn; lia.
  - split_cases; frame_grows; split; try reflexivity; cbn; lia.
  - split_cases; frame_grows; split; try reflexivity; cbn; lia.
  - split_cases; frame_grows; split; try reflexivity; cbn; lia.
Qed.

(** X13.  Each operation keeps to its own primitive and endpoint: a send
    makes uploads to the upload endpoint and posts to the send endpoint
    only, a view acknowledgement posts to the update-snaps endpoint only, a
    screenshot goes through [client.sendEvents] only, [loadSnap] posts to
    the load-blob endpoint only and the filter query to the location-data
    endpoint only. *)
Theorem run_calls env self o w :
  exists new,
    trace (snd (run env self o w)) = trace w ++ new
    /\ Forall (fun ev => may_call env o (ev_call ev)) new.
Proof.
  destruct o as [blob rs txt d | blob opts | snap sv | snaps times svs
                | snap sv | snap | location]; unfold_facade.
  - unfold SnapOptions_new.
    destruct (d <=? 0); [frame_grows; constructor |].
    destruct blob; try (frame_grows; constructor).
    split_cases; frame_grows; repeat constructor.
  - destruct blob; try (frame_grows; constructor).
    split_cases; frame_grows; repeat constructor.
  - cbn [List.length Nat.eqb negb orb].
    destruct (get_member (self_session self) "addedFriendsTimestamp");
      [| frame_grows; constructor].
    split_cases; frame_grows; repeat constructor.
  - destruct (negb (Nat.eqb (List.length snaps) (List.length times))
              || negb (Nat.eqb (List.length times) (List.length svs)));
      [frame_grows; constructor |].
    destruct (get_member (self_session self) "addedFriendsTimestamp");
      [| frame_grows; constructor].
    split_cases; frame_grows; repeat constructor.
  - split_cases; frame_grows; repeat constructor.
  - split_cases; frame_grows; repeat constructor.
  - split_cases; frame_grows; repeat constructor.
Qed.

(** ** Coercion of timestamps *)

(** X14.  [timestamp | 0], as [markSnapScreenshot] computes [t] and [ts],
    gives the timestamp back exactly when the timestamp fits in a signed
    32-bit integer; any other timestamp is changed by it. *)
Theorem js_bitor_zero_fixes_int32 (n : Z) :
  js_bitor n 0 = n <-> - 2 ^ 31 <= n < 2 ^ 31.
Proof.
  rewrite js_bitor_zero. split.
  - intros Heq. rewrite <- Heq. apply ToInt32_range.
  - intros Hr. unfold ToInt32.
    destruct (Z_lt_le_dec n 0) as [Hneg | Hpos].
    + assert (Hm : n mod 2 ^ 32 = n + 2 ^ 32).
      { symmetry. apply (Z.mod_unique n (2 ^ 32) (-1)); lia. }
      rewrite Hm. destruct (n + 2 ^ 32 >=? 2 ^ 31) eqn:E; lia.
    + rewrite Z.mod_small by lia.
      destruct (n >=? 2 ^ 31) eqn:E; lia.
Qed.

(** ** The answer to a screenshot *)

(** X15.  [markSnapScreenshot] reads the clock twice, makes its one call,
    and answers with what [client.sendEvents] calls back with: its error as
    a rejection, otherwise its result, unchanged. *)
Theorem markSnapScreenshot_outcome env self snap secondsViewed w :
  exists ev,
    trace (snd (markSnapScreenshot env self snap secondsViewed w))
    = trace w ++ [ev]
    /\ ev_client ev = client w
    /\ ev_reply ev = transport env (trace w) (client w) (ev_call ev)
    /\ ticks (snd (markSnapScreenshot env self snap secondsViewed w))
       = S (S (ticks w))
    /\ fst (markSnapScreenshot env self snap secondsViewed w)
       = Ok (if failed ev then Rejected (r_err (ev_reply ev))
             else Resolved (r_result (ev_reply ev))).
Proof.
  rewrite markSnapScreenshot_run. cbn [fst snd trace ticks].
  eexists {| ev_client := _; ev_call := _; ev_reply := _ |}.
  unfold failed. cbn [ev_client ev_call ev_reply].
  repeat split.
Qed.
